(** * bucketbench: the custom benchmark engine and the Docker driver

    A shallow embedding of [benches.CustomBench] (its [Init], [Validate],
    [Run], [runThread] and [Stats] methods) and of [driver.DockerDriver]
    ([NewDockerDriver], [Info], [parseDaemonInfo], [Clean], [Run] and the
    other commands of the client), followed by the properties proved over
    it.

    Go values are modelled as follows.
    - [string] is a Go string, byte by byte.
    - [int] and [time.Duration] are [Z]; the only arithmetic on them is the
      error counter [errors[cmd]++], bounded by the length of the command
      list, and one subtraction of two clock readings.
    - [error] is the text of the error ([err.Error()]); [nil] is [None].
    - [map[string]T] is [gmap string T].
    - A driver is a state machine: each method takes the state of the driver
      instance and returns its result with the next state.
    - A buffered channel is its buffer, its capacity and its closed flag.
    - A goroutine started by [Run] owns its driver and its channel and shares
      nothing else that is written, so it is represented by the arguments it
      was started with, and joining it evaluates [runThread] on them.
    - The operating system is a parameter, as the functions of package
      [utils] see it: a command gives its output and its error and changes
      the system.
    - A function that can panic returns an [option], [None] being the
      panic. *)

From Stdlib Require Import ZArith String Ascii List Bool Lia.
From Stdlib Require Import DecimalString DecimalZ DecimalPos.
From stdpp Require Import base gmap strings list.

#[local] Set Warnings "-clear-no-such-hyp".

Local Open Scope string_scope.
Local Open Scope list_scope.

(** ** Part I: definitions *)

(** *** The functions of Go's [strings] and [fmt] packages that the code calls *)
Module gostrings.

(** One ASCII letter to lower case. *)
Definition lower_byte (c : ascii) : ascii :=
  let n := N_of_ascii c in
  if ((65 <=? n) && (n <=? 90))%N then ascii_of_N (n + 32) else c.

(** The two runes outside ASCII whose lower case is an ASCII letter:
    U+0130 (bytes C4 B0) lowers to [i] and U+212A (bytes E2 84 AA) lowers
    to [k].  [lower_rune] rewrites one of them at the head of [s]. *)
Definition lower_rune (s : string) : string :=
  match s with
  | String a (String b r) =>
      if Ascii.eqb a "196" && Ascii.eqb b "176" then String "i" r
      else
        match r with
        | String c r' =>
            if Ascii.eqb a "226" && Ascii.eqb b "132" && Ascii.eqb c "170"
            then String "k" r'
            else s
        | EmptyString => s
        end
  | _ => s
  end.

(** [strings.ToLower].  The bytes of every other rune outside ASCII are
    kept; Go maps some of them to other runes outside ASCII.  The callers
    below only compare the result with ASCII words, and no ASCII word is
    equal to a string holding such a rune, before or after Go's mapping. *)
Fixpoint ToLower (s : string) : string :=
  match s with
  | EmptyString => EmptyString
  | String c r => lower_rune (String (lower_byte c) (ToLower r))
  end.

(** [strings.Split(s, sep)] for a separator of one byte. *)
Fixpoint Split (s : string) (sep : ascii) : list string :=
  match s with
  | EmptyString => [EmptyString]
  | String c r =>
      if Ascii.eqb c sep then EmptyString :: Split r sep
      else
        match Split r sep with
        | h :: t => String c h :: t
        | [] => [String c EmptyString]
        end
  end.

(** [strings.SplitN(s, sep, n)] for a separator of one byte and [n >= 0]:
    at most [n] pieces, the last one being the unsplit rest. *)
Fixpoint SplitN (s : string) (sep : ascii) (n : nat) {struct s} : list string :=
  match n with
  | O => []
  | S O => [s]
  | S (S _ as n') =>
      match s with
      | EmptyString => [EmptyString]
      | String c r =>
          if Ascii.eqb c sep then EmptyString :: SplitN r sep n'
          else
            match SplitN r sep n with
            | h :: t => String c h :: t
            | [] => [String c EmptyString]
            end
      end
  end.

(** [strings.Contains(s, substr)]. *)
Fixpoint Contains (s substr : string) : bool :=
  String.prefix substr s ||
  match s with
  | EmptyString => false
  | String _ r => Contains r substr
  end.

(** The verb [%d] of [fmt]. *)
Definition itoa (n : Z) : string := NilZero.string_of_int (Z.to_int n).

(** Two strings that differ only in the case of ASCII letters. *)
Inductive same_letters : string -> string -> Prop :=
| same_nil : same_letters EmptyString EmptyString
| same_cons a b s t :
    lower_byte a = lower_byte b -> same_letters s t ->
    same_letters (String a s) (String b t).

(** A [switch] case with several labels. *)
Definition one_of (labels : list string) (s : string) : bool :=
  existsb (String.eqb s) labels.

(** [strings.Join(elems, sep)] for a separator of one byte. *)
Fixpoint Join (elems : list string) (sep : ascii) : string :=
  match elems with
  | [] => EmptyString
  | [e] => e
  | e :: rest => e +:+ String sep (Join rest sep)
  end.

(** The white space of [unicode.IsSpace]: the six ASCII characters, and the
    UTF-8 encodings of U+0085, U+00A0 (two bytes) and of U+1680,
    U+2000..U+200A, U+2028, U+2029, U+202F, U+205F, U+3000 (three bytes). *)
Definition space1 (a : ascii) : bool :=
  let n := N_of_ascii a in ((9 <=? n) && (n <=? 13) || (n =? 32))%N.

Definition space2 (a b : ascii) : bool :=
  ((N_of_ascii a =? 194) && ((N_of_ascii b =? 133) || (N_of_ascii b =? 160)))%N.

Definition space3 (a b c : ascii) : bool :=
  let '(x, y, z) := (N_of_ascii a, N_of_ascii b, N_of_ascii c) in
  ((x =? 225) && (y =? 154) && (z =? 128)
   || (x =? 226) && (y =? 128)
      && ((128 <=? z) && (z <=? 138) || (z =? 168) || (z =? 169) || (z =? 175))
   || (x =? 226) && (y =? 129) && (z =? 159)
   || (x =? 227) && (y =? 128) && (z =? 128))%N.

(** [s] is one white space rune. *)
Definition space_rune (s : string) : bool :=
  match s with
  | String a EmptyString => space1 a
  | String a (String b EmptyString) => space2 a b
  | String a (String b (String c EmptyString)) => space3 a b c
  | _ => false
  end.

(** [strings.TrimLeftFunc(s, unicode.IsSpace)] *)
Fixpoint TrimLeft (s : string) : string :=
  match s with
  | EmptyString => s
  | String a r =>
      if space1 a then TrimLeft r
      else
        match r with
        | EmptyString => s
        | String b r2 =>
            if space2 a b then TrimLeft r2
            else
              match r2 with
              | EmptyString => s
              | String c r3 => if space3 a b c then TrimLeft r3 else s
              end
        end
  end.

(** [strings.TrimRightFunc(s, unicode.IsSpace)]: what is left of [s] from
    its last byte backwards is dropped as long as it is one white space
    rune. *)
Fixpoint TrimRight (s : string) : string :=
  match s with
  | EmptyString => s
  | String a r =>
      let kept := String a (TrimRight r) in
      if space_rune kept then EmptyString else kept
  end.

(** [strings.TrimSpace] *)
Definition TrimSpace (s : string) : string := TrimRight (TrimLeft s).

(** The line feed and the carriage return. *)
Definition LF : ascii := "010".
Definition CR : ascii := "013".

(** The tokens of [bufio.ScanLines] before the carriage return is dropped:
    the text between line feeds, and the text after the last one when it is
    not empty. *)
Fixpoint raw_lines (s : string) : list string :=
  match s with
  | EmptyString => []
  | String c r =>
      if Ascii.eqb c LF then EmptyString :: raw_lines r
      else
        match raw_lines r with
        | h :: t => String c h :: t
        | [] => [String c EmptyString]
        end
  end.

(** [dropCR] of package bufio: one carriage return at the end is dropped. *)
Fixpoint dropCR (s : string) : string :=
  match s with
  | EmptyString => s
  | String c EmptyString => if Ascii.eqb c CR then EmptyString else s
  | String c r => String c (dropCR r)
  end.

(** [bufio.MaxScanTokenSize]: the scanner gives up at a line that does not
    fit in its buffer, and the loop [for scanner.Scan()] ends there. *)
Definition MaxScanTokenSize : Z := 65536.

Fixpoint scanned (tokens : list string) : list string :=
  match tokens with
  | [] => []
  | l :: rest =>
      if (Z.of_nat (String.length l) <? MaxScanTokenSize)%Z
      then dropCR l :: scanned rest
      else []
  end.

(** The texts that [scanner.Text()] takes in [for scanner.Scan()], for a
    scanner of lines on the text [s]. *)
Definition Scan (s : string) : list string := scanned (raw_lines s).

(** The byte [c] occurs in [s]. *)
Fixpoint has_byte (c : ascii) (s : string) : bool :=
  match s with
  | EmptyString => false
  | String a r => Ascii.eqb a c || has_byte c r
  end.

End gostrings.

(** *** Logging and the other effects a run leaves behind *)
Module effects.

Inductive Level := DebugLevel | InfoLevel | WarnLevel | ErrorLevel.

(** An argument of a log call. *)
Inductive Arg :=
| AStr (s : string)
| AStrs (l : list string)
| AInt (n : Z)
| AErr (e : string).

(** A method of the driver interface, as invoked. *)
Inductive Method :=
| MNew | MClean
| MCreate (name : string)
| MRun | MStop | MRemove | MPause | MUnpause | MWait | MStats
| MExecsync (args : list string)
| MClose.

Inductive State := Created | Running | Completed.

(** What a thread of the benchmark does besides computing: in program
    order. *)
Inductive Effect :=
| Log (lv : Level) (format : string) (args : list Arg)
| Call (m : Method)
| SetState (s : State)
| Go (index : Z)
| WaitDone
| WithCancel
| Cancel
| GoDiscard.

(** In a sequence of effects, every transition to [Completed] comes
    after a call of [Clean]. *)
Definition clean_before_completed (l : list Effect) : Prop :=
  forall i, l !! i = Some (SetState Completed) ->
    exists j, (j < i)%nat /\ l !! j = Some (Call MClean).

End effects.

(** *** Package [driver]: the interface the benchmark consumes *)
Module driver.
Import effects.

Definition error := string.
Definition Duration := Z.

(** The result [(out, elapsed, err)] of a timed driver command. *)
Definition Timed : Type := string * Duration * option error.

(** The methods of [driver.Driver] that [benches.CustomBench] calls, over
    the state [D] of a driver instance.  [Container] is the handle that
    [Create] returns and [ReadCloser] the stream that [Stats] returns. *)
Class Driver (D : Type) := {
  Container : Type;
  ReadCloser : Type;
  Clean : D -> option error * D;
  Create : string -> string -> string -> bool -> bool -> D -> (Container + error) * D;
  Run : Container -> D -> Timed * D;
  Stop : Container -> D -> Timed * D;
  Remove : Container -> D -> Timed * D;
  Pause : Container -> D -> Timed * D;
  Unpause : Container -> D -> Timed * D;
  Wait : Container -> D -> Timed * D;
  Stats : Container -> D -> (ReadCloser + error) * D;
  Execsync : Container -> list string -> D -> Timed * D;
  Close : D -> option error * D
}.

End driver.

(** *** [DockerDriver] (docker.go) *)
Module DockerDriver.
Import effects driver.

Record DockerDriver := {
  dockerBinary : string;
  dockerInfo : string;
  logDriver : string
}.

Section Shell.
(** The operating system as [utils.ExecShellCmd] sees it: a command line
    gives the output and the error, and changes the system. *)
Context {OS : Type}
        (ExecShellCmd : string -> OS -> (string * option error) * OS).

Definition requires_argument : string := "requires at least 1 argument".
Definition stop_containers : string := "docker stop `docker ps -qf name=bb-ctr-`".
Definition remove_containers : string := "docker rm -f `docker ps -aqf name=bb-ctr-`".
Definition stop_warning : string :=
  "Docker: Failed to stop running bb-ctr-* containers: %v (output: %s)".
Definition remove_warning : string :=
  "Docker: Failed to remove exited bb-ctr-* containers: %v (output: %s)".

(** [Clean] returns its error, the system after the two shell commands
    and the lines it has logged. *)
Definition Clean (d : DockerDriver) (os : OS)
  : option error * OS * list Effect :=
  let log := [Log InfoLevel
    "Docker: Stopping any running containers created during bucketbench runs" []] in
  let cmd := stop_containers in
  let '((out, err), os) := ExecShellCmd cmd os in
  let log :=
    match err with
    | Some e =>
        if negb (gostrings.Contains out requires_argument)
        then log ++ [Log WarnLevel stop_warning [AErr e; AStr out]]
        else log
    | None => log
    end in
  let log := log ++ [Log InfoLevel
    "Docker: Removing exited containers from bucketbench runs" []] in
  let cmd := remove_containers in
  let '((out, err), os) := ExecShellCmd cmd os in
  let log :=
    match err with
    | Some e =>
        if negb (gostrings.Contains out requires_argument)
        then log ++ [Log WarnLevel remove_warning [AErr e; AStr out]]
        else log
    | None => log
    end in
  (None, os, log).
End Shell.

(** The container of the Docker driver. *)
Record DockerContainer := {
  name : string;
  imageName : string;
  cmdOverride : string;
  detached : bool;
  trace : bool
}.

Definition newDockerContainer (name image cmd : string) (detached trace : bool)
  : DockerContainer :=
  {| name := name; imageName := image; cmdOverride := cmd;
     detached := detached; trace := trace |}.

Definition Name (c : DockerContainer) : string := name c.
Definition Detached (c : DockerContainer) : bool := detached c.
Definition Trace (c : DockerContainer) : bool := trace c.
Definition Image (c : DockerContainer) : string := imageName c.
Definition Command (c : DockerContainer) : string := cmdOverride c.
Definition GetPodID (c : DockerContainer) : string := EmptyString.

Definition Path (d : DockerDriver) : string := dockerBinary d.
Definition Close (d : DockerDriver) : option error := None.

Definition Create (d : DockerDriver) (name image cmdOverride : string)
           (detached trace : bool) : DockerContainer + error :=
  inl (newDockerContainer name image cmdOverride detached trace).

(** **** [parseDaemonInfo] *)

(** The three variables of [parseDaemonInfo]. *)
Record Versions := {
  clientVer : string;
  clientAPI : string;
  serverVer : string
}.

(** The body of the loop over the lines of [docker version]; [None] is the
    panic of [parts[1]] on a line without a colon. *)
Definition version_line (v : option Versions) (line : string) : option Versions :=
  match v with
  | None => None
  | Some v =>
      let parts := gostrings.Split line ":" in
      let key := gostrings.TrimSpace (nth 0 parts EmptyString) in
      if String.eqb key "Version" then
        match nth_error parts 1 with
        | None => None
        | Some value =>
            if String.eqb (clientVer v) EmptyString then
              Some {| clientVer := gostrings.TrimSpace value;
                      clientAPI := clientAPI v; serverVer := serverVer v |}
            else
              Some {| clientVer := clientVer v; clientAPI := clientAPI v;
                      serverVer := gostrings.TrimSpace value |}
        end
      else if String.eqb key "API version" then
        match nth_error parts 1 with
        | None => None
        | Some value =>
            if String.eqb (clientAPI v) EmptyString then
              Some {| clientVer := clientVer v +:+ "|API:"
                                     +:+ gostrings.TrimSpace value;
                      clientAPI := value; serverVer := serverVer v |}
            else
              Some {| clientVer := clientVer v; clientAPI := clientAPI v;
                      serverVer := serverVer v +:+ "|API:"
                                     +:+ gostrings.TrimSpace value |}
        end
      else Some v
  end.

(** The labels of [docker info] that are kept, with their tags. *)
Definition info_tags : list (string * string) :=
  [("Kernel Version", "|Kernel:"); ("Storage Driver", "|Storage:");
   ("Backing Filesystem", "|BackingFS:")].

Definition tag_of (key : string) : option string :=
  snd <$> List.find (fun kt => String.eqb key (fst kt)) info_tags.

(** The body of the loop over the lines of [docker info]. *)
Definition info_line (v : option Versions) (line : string) : option Versions :=
  match v with
  | None => None
  | Some v =>
      let parts := gostrings.Split line ":" in
      let key := gostrings.TrimSpace (nth 0 parts EmptyString) in
      match tag_of key with
      | Some tag =>
          match nth_error parts 1 with
          | None => None
          | Some value =>
              Some {| clientVer := clientVer v; clientAPI := clientAPI v;
                      serverVer := serverVer v +:+ tag
                                     +:+ gostrings.TrimSpace value |}
          end
      | None => Some v
      end
  end.

(** [parseDaemonInfo]; [None] when it panics. *)
Definition parseDaemonInfo (version info : string) : option string :=
  let v := Some {| clientVer := EmptyString; clientAPI := EmptyString;
                   serverVer := EmptyString |} in
  let v := fold_left version_line (gostrings.Scan version) v in
  let v := fold_left info_line (gostrings.Scan info) v in
  match v with
  | Some v => Some ("[CLIENT:" +:+ clientVer v +:+ "][SERVER:" +:+ serverVer v +:+ "]")
  | None => None
  end.

(** **** The methods that run the Docker client *)
Section Client.
(** The operating system as [utils.ExecCmd], [utils.ExecTimedCmd] and
    [utils.ResolveBinary] see it. *)
Context {OS : Type}
        (ExecCmd : string -> string -> OS -> (string * option error) * OS)
        (ExecTimedCmd : string -> string -> OS -> (string * Z * option error) * OS)
        (ResolveBinary : string -> OS -> string + error).

Definition defaultDockerBinary : string := "docker".

(** [Info]: the result, [None] when [parseDaemonInfo] panics, with the
    driver and the system after the call. *)
Definition Info (d : DockerDriver) (os : OS)
  : option (string + error) * DockerDriver * OS :=
  if negb (String.eqb (dockerInfo d) EmptyString) then
    (Some (inl (dockerInfo d)), d, os)
  else
    let infoStart := "docker driver (binary: " +:+ dockerBinary d +:+ ")"
                       +:+ String gostrings.LF EmptyString in
    let '((version, _), os) := ExecCmd (dockerBinary d) "version" os in
    let '((info, err), os) := ExecCmd (dockerBinary d) "info" os in
    match err with
    | Some e =>
        (Some (inr ("Error trying to retrieve docker daemon info: " +:+ e)), d, os)
    | None =>
        match parseDaemonInfo version info with
        | None => (None, d, os)
        | Some parsed =>
            let d := {| dockerBinary := dockerBinary d;
                        dockerInfo := infoStart +:+ parsed;
                        logDriver := logDriver d |} in
            (Some (inl (dockerInfo d)), d, os)
        end
    end.

(** [NewDockerDriver]: the driver, [None] for nil, and the error; the whole
    is [None] when [Info] panics. *)
Definition NewDockerDriver (binaryPath logDriver : string) (os : OS)
  : option (option DockerDriver * option error) * OS * list Effect :=
  let binaryPath :=
    if String.eqb binaryPath EmptyString then defaultDockerBinary else binaryPath in
  match ResolveBinary binaryPath os with
  | inr e =>
      (Some (Some {| dockerBinary := EmptyString; dockerInfo := EmptyString;
                     logDriver := EmptyString |}, Some e), os, [])
  | inl resolvedBinPath =>
      let driver := {| dockerBinary := resolvedBinPath; dockerInfo := EmptyString;
                       logDriver := logDriver |} in
      let '(r, driver, os) := Info driver os in
      match r with
      | None => (None, os, [])
      | Some (inr e) => (Some (None, Some e), os, [])
      | Some (inl info) =>
          (Some (Some driver, None), os,
           [Log DebugLevel "running docker driver: '%s', log driver: '%s'"
              [AStr info; AStr logDriver]])
      end
  end.

(** [Wait], [Stop], [Remove], [Pause], [Unpause] *)
Definition Wait (d : DockerDriver) (ctr : DockerContainer) :=
  ExecTimedCmd (dockerBinary d) ("wait " +:+ Name ctr).
Definition Stop (d : DockerDriver) (ctr : DockerContainer) :=
  ExecTimedCmd (dockerBinary d) ("kill " +:+ Name ctr).
Definition Remove (d : DockerDriver) (ctr : DockerContainer) :=
  ExecTimedCmd (dockerBinary d) ("rm " +:+ Name ctr).
Definition Pause (d : DockerDriver) (ctr : DockerContainer) :=
  ExecTimedCmd (dockerBinary d) ("pause " +:+ Name ctr).
Definition Unpause (d : DockerDriver) (ctr : DockerContainer) :=
  ExecTimedCmd (dockerBinary d) ("unpause " +:+ Name ctr).

(** The arguments of [docker run] that [Run] builds. *)
Definition run_args (d : DockerDriver) (ctr : DockerContainer) : list string :=
  let args := ["run"] in
  let args := if Detached ctr then args ++ ["-d"] else args in
  let args :=
    if negb (String.eqb (logDriver d) EmptyString)
    then args ++ ["--log-driver"; logDriver d] else args in
  let args := args ++ ["--name"; Name ctr; Image ctr] in
  if negb (String.eqb (Command ctr) EmptyString)
  then args ++ [Command ctr] else args.

(** [Run] *)
Definition Run (d : DockerDriver) (ctr : DockerContainer) :=
  ExecTimedCmd (dockerBinary d) (gostrings.Join (run_args d ctr) " ").

(** [Metrics] *)
Definition Metrics (d : DockerDriver) (ctr : DockerContainer) :=
  ExecCmd (dockerBinary d) ("stats --no-stream " +:+ Name ctr).

End Client.

(** **** What the properties of the Docker driver are stated with *)

(** The expression of the two [switch] statements of [parseDaemonInfo]. *)
Definition label (line : string) : string :=
  gostrings.TrimSpace (nth 0 (gostrings.Split line ":") EmptyString).

(** The labels of the first loop and of the second loop. *)
Definition version_labels : list string := ["Version"; "API version"].
Definition info_labels : list string := map fst info_tags.

(** The line is read by the first loop, by the second loop. *)
Definition version_entry (line : string) : bool :=
  gostrings.one_of version_labels (label line).
Definition info_entry (line : string) : bool :=
  gostrings.one_of info_labels (label line).

(** A line that is read and has no colon. *)
Definition incomplete (entry : string -> bool) (line : string) : bool :=
  entry line && negb (gostrings.has_byte ":" line).

(** The binary that [NewDockerDriver] resolves. *)
Definition given (binaryPath : string) : string :=
  if String.eqb binaryPath EmptyString then defaultDockerBinary else binaryPath.

(** The words of the command line of [Run], the override command being cut
    at its spaces. *)
Definition run_words (d : DockerDriver) (ctr : DockerContainer) : list string :=
  ["run"] ++ (if Detached ctr then ["-d"] else [])
    ++ (if String.eqb (logDriver d) EmptyString then []
        else ["--log-driver"; logDriver d])
    ++ ["--name"; Name ctr; Image ctr]
    ++ (if String.eqb (Command ctr) EmptyString then []
        else gostrings.Split (Command ctr) " ").

End DockerDriver.

(** *** Package [benches]: [CustomBench] *)
Module benches.
Import effects gostrings.
Import driver.

Definition Time := Z.

(** The record a worker emits for one iteration. *)
Record RunStatistics := {
  Durations : gmap string Duration;
  Errors : gmap string Z;
  Timestamp : Time
}.

(** A buffered channel of [RunStatistics] with no receiver yet. *)
Record Chan := { buf : list RunStatistics; cap : Z; closed : bool }.

(** [make(chan RunStatistics, n)] *)
Definition make_chan (n : Z) : Chan := {| buf := []; cap := n; closed := false |}.

(** [ch <- v]: [None] when the buffer is full, where the sender blocks. *)
Definition send (v : RunStatistics) (ch : Chan) : option Chan :=
  if (Z.of_nat (length (buf ch)) <? cap ch)%Z
  then Some {| buf := buf ch ++ [v]; cap := cap ch; closed := closed ch |}
  else None.

(** [close(ch)] *)
Definition close (ch : Chan) : Chan :=
  {| buf := buf ch; cap := cap ch; closed := true |}.

(** [for v := range ch] after the senders are gone: the buffered values
    when the channel is closed; [None] when it is open, where the receiver
    blocks for ever. *)
Definition range (ch : Chan) : option (list RunStatistics) :=
  if closed ch then Some (buf ch) else None.

(** How a worker's loop body, or the worker, ends. *)
Inductive Exit := Done | Aborted | Blocked.

(** How a call of [Run] ends. *)
Inductive Outcome :=
| Returned (err : option error)
| Panicked (msg : string)
| Deadlocked.

Section Bench.
(** [Config] is [driver.Config]; [F] is what [driver.New] depends on
    besides the configuration, and [New] is [driver.New]; a driver
    instance has its state in [D].  [ContainerNamePrefix] is the
    constant of the driver package. *)
Context {Config F D : Type} `{!Driver D}.
Context (New : Config -> F -> (D + error) * F).
Context (ContainerNamePrefix : string).

Record CustomBench := {
  config : Config;
  benchName : string;
  driver : D;
  imageInfo : string;
  cmdOverride : string;
  trace : bool;
  stats : list RunStatistics;
  elapsed : Duration;
  state : State
}.

(** What a call of [Run] reads from outside: the driver factory and the
    clock, as read by [Run] at its start and after the join, and by
    worker [t] at the end of its iteration [i]. *)
Record Env := {
  factory : F;
  at_start : Time;
  at_join : Time;
  at_emit : Z -> Z -> Time
}.

(** The variables of one iteration of a worker. *)
Record Iter := {
  it_runner : D;
  errors : gmap string Z;
  durations : gmap string Duration;
  it_eff : list Effect
}.

Definition emit (e : Effect) (it : Iter) : Iter :=
  {| it_runner := it_runner it; errors := errors it;
     durations := durations it; it_eff := it_eff it ++ [e] |}.

(** [errors[cmd]++] *)
Definition count_error (cmd : string) (it : Iter) : Iter :=
  {| it_runner := it_runner it;
     errors := <[cmd := (default 0 (errors it !! cmd) + 1)%Z]> (errors it);
     durations := durations it; it_eff := it_eff it |}.

(** The closure [log_error] of [runThread]. *)
Definition log_error (cmd name : string) (err : option error) (out : string)
           (elapsed : Duration) (it : Iter) : Iter :=
  let it :=
    match err with
    | Some e =>
        emit (Log WarnLevel
                "Error during container command %q on %q: %v\n  Output: %s"
                [AStr cmd; AStr name; AErr e; AStr out])
             (count_error cmd it)
    | None => it
    end in
  emit (Log DebugLevel "" [AStr out])
    {| it_runner := it_runner it; errors := errors it;
       durations := <[cmd := elapsed]> (durations it); it_eff := it_eff it |}.

(** A timed driver command followed by [log_error] under [key]. *)
Definition timed (m : Method) (op : D -> Timed * D) (key name : string)
           (it : Iter) : Iter :=
  let '((out, elapsed, err), d) := op (it_runner it) in
  log_error key name err out elapsed
    (emit (Call m)
       {| it_runner := d; errors := errors it;
          durations := durations it; it_eff := it_eff it |}).

(** The body of [for _, cmd := range commands]. *)
Definition command (ctr : Container) (name cmd : string) (it : Iter) : Iter :=
  let parts := SplitN cmd " " 2 in
  let '(cmd, args, it) :=
    match parts with
    | [head; rest] =>
        let args := Split rest " " in
        (head, args,
         emit (Log DebugLevel "running command: %s args: %s"
                 [AStr head; AStrs args]) it)
    | _ => (cmd, [], it)
    end in
  let it := emit (Log DebugLevel "running command: %s" [AStr cmd]) it in
  let verb := ToLower cmd in
  if one_of ["run"; "start"] verb then
    timed MRun (driver.Run ctr) "run" name it
  else if one_of ["stop"; "kill"] verb then
    timed MStop (driver.Stop ctr) "stop" name it
  else if one_of ["remove"; "erase"; "delete"] verb then
    timed MRemove (driver.Remove ctr) "remove" name it
  else if one_of ["pause"] verb then
    timed MPause (driver.Pause ctr) cmd name it
  else if one_of ["unpause"; "resume"] verb then
    timed MUnpause (driver.Unpause ctr) "resume" name it
  else if one_of ["wait"] verb then
    timed MWait (driver.Wait ctr) cmd name it
  else if one_of ["metrics"; "stats"] verb then
    let '(r, d) := driver.Stats ctr (it_runner it) in
    let it := emit (Call MStats)
                {| it_runner := d; errors := errors it;
                   durations := durations it; it_eff := it_eff it |} in
    match r with
    | inr e =>
        emit (Log WarnLevel "Error during container command %q on %q: %v"
                [AStr cmd; AStr name; AErr e])
             (count_error "metrics" it)
    | inl reader => emit GoDiscard it
    end
  else if one_of ["execsync"] verb then
    timed (MExecsync args) (driver.Execsync ctr args) cmd name it
  else
    emit (Log ErrorLevel
            "Command %q unrecognized from YAML commands list; skipping"
            [AStr cmd]) it.

(** A worker: its driver, its channel, and what it has done so far. *)
Record Thread := { runner : D; ch : Chan; eff : list Effect }.

(** [fmt.Sprintf("%s-%d-%d", driver.ContainerNamePrefix, threadNum, i)] *)
Definition container_name (threadNum i : Z) : string :=
  ContainerNamePrefix +:+ "-" +:+ itoa threadNum +:+ "-" +:+ itoa i.

(** The body of [for i := 0; i < iterations; i++] in [runThread]. *)
Definition iteration (cb : CustomBench) (clock : Z -> Z -> Time)
           (threadNum : Z) (commands : list string) (i : Z) (t : Thread)
  : Exit * Thread :=
  let name := container_name threadNum i in
  let '(r, d) :=
    Create name (imageInfo cb) (cmdOverride cb) true (trace cb) (runner t) in
  let eff := eff t ++ [Call (MCreate name)] in
  match r with
  | inr e =>
      (Aborted,
       {| runner := d; ch := ch t;
          eff := eff ++ [Log ErrorLevel
                   "Error on creating container %q from image %q: %v"
                   [AStr name; AStr (imageInfo cb); AErr e]] |})
  | inl ctr =>
      let it := {| it_runner := d; errors := ∅; durations := ∅;
                   it_eff := eff ++ [WithCancel] |} in
      let it := fold_left (fun it cmd => command ctr name cmd it) commands it in
      let it := emit Cancel it in
      let entry := {| Durations := durations it; Errors := errors it;
                      Timestamp := clock threadNum i |} in
      match send entry (ch t) with
      | Some ch' =>
          (Done, {| runner := it_runner it; ch := ch'; eff := it_eff it |})
      | None =>
          (Blocked, {| runner := it_runner it; ch := ch t; eff := it_eff it |})
      end
  end.

(** The loop of [runThread], from iteration [i], with [n] iterations to
    go. *)
Fixpoint loop (cb : CustomBench) (clock : Z -> Z -> Time) (threadNum : Z)
         (commands : list string) (n : nat) (i : Z) (t : Thread)
  : Exit * Thread :=
  match n with
  | O => (Done, t)
  | S n' =>
      match iteration cb clock threadNum commands i t with
      | (Done, t') => loop cb clock threadNum commands n' (i + 1)%Z t'
      | stopped => stopped
      end
  end.

(** [runThread]: the loop, then the deferred function, which closes the
    driver and the channel.  A worker blocked on its channel never
    reaches the deferred function. *)
Definition runThread (cb : CustomBench) (clock : Z -> Z -> Time) (runner0 : D)
           (threadNum iterations : Z) (commands : list string)
           (stats0 : Chan) : Exit * Thread :=
  let '(e, t) :=
    loop cb clock threadNum commands (Z.to_nat iterations) 0%Z
         {| runner := runner0; ch := stats0; eff := [] |} in
  match e with
  | Blocked => (Blocked, t)
  | _ =>
      let '(err, d) := Close (runner t) in
      let eff := eff t ++ [Call MClose] in
      let eff :=
        match err with
        | Some e' => eff ++ [Log ErrorLevel "error on closing driver: %v" [AErr e']]
        | None => eff
        end in
      (e, {| runner := d; ch := close (ch t); eff := eff |})
  end.

(** A goroutine started by [Run]: the arguments of its [runThread]. *)
Record Goroutine := { g_runner : D; g_index : Z; g_stats : Chan }.

(** The worker a goroutine runs to its end. *)
Definition join (cb : CustomBench) (clock : Z -> Z -> Time) (iterations : Z)
           (commands : list string) (g : Goroutine) : Exit * Thread :=
  runThread cb clock (g_runner g) (g_index g) iterations commands (g_stats g).

(** The state of [for i := 0; i < threads; i++] in [Run]. *)
Record Spawn := {
  sp_factory : F;
  sp_goroutines : list Goroutine;
  sp_eff : list Effect
}.

Fixpoint spawn (cb : CustomBench) (iterations : Z) (n : nat) (i : Z) (sp : Spawn)
  : option error * Spawn :=
  match n with
  | O => (None, sp)
  | S n' =>
      let '(r, f) := New (config cb) (sp_factory sp) in
      match r with
      | inr e =>
          (Some ("error creating new driver for thread " +:+ itoa i +:+ ": " +:+ e),
           {| sp_factory := f; sp_goroutines := sp_goroutines sp;
              sp_eff := sp_eff sp ++ [Call MNew] |})
      | inl drv =>
          spawn cb iterations n' (i + 1)%Z
            {| sp_factory := f;
               sp_goroutines := sp_goroutines sp ++
                 [{| g_runner := drv; g_index := i;
                     g_stats := make_chan iterations |}];
               sp_eff := sp_eff sp ++ [Call MNew; Go i] |}
      end
  end.

(** [for _, ch := range statChan { for statEntry := range ch {...} }] *)
Fixpoint collect (chans : list Chan) : option (list RunStatistics) :=
  match chans with
  | [] => Some []
  | c :: rest =>
      match range c, collect rest with
      | Some entries, Some more => Some (entries ++ more)
      | _, _ => None
      end
  end.

Definition blocked (w : Exit * Thread) : bool :=
  match w.1 with Blocked => true | _ => false end.

(** What [Run] leaves: how it ended, the benchmark, the factory, the
    goroutines it started, the workers it joined, and its own effects. *)
Record Result := {
  outcome : Outcome;
  bench : CustomBench;
  factory' : F;
  spawned : list Goroutine;
  joined : list (Exit * Thread);
  effects : list Effect
}.

Definition set_state (s : State) (cb : CustomBench) : CustomBench :=
  {| config := config cb; benchName := benchName cb; driver := driver cb;
     imageInfo := imageInfo cb; cmdOverride := cmdOverride cb;
     trace := trace cb; stats := stats cb; elapsed := elapsed cb;
     state := s |}.

Definition set_elapsed (d : Duration) (cb : CustomBench) : CustomBench :=
  {| config := config cb; benchName := benchName cb; driver := driver cb;
     imageInfo := imageInfo cb; cmdOverride := cmdOverride cb;
     trace := trace cb; stats := stats cb; elapsed := d;
     state := state cb |}.

Definition set_stats (l : list RunStatistics) (cb : CustomBench) : CustomBench :=
  {| config := config cb; benchName := benchName cb; driver := driver cb;
     imageInfo := imageInfo cb; cmdOverride := cmdOverride cb;
     trace := trace cb; stats := l; elapsed := elapsed cb;
     state := state cb |}.

Definition set_driver (d : D) (cb : CustomBench) : CustomBench :=
  {| config := config cb; benchName := benchName cb; driver := d;
     imageInfo := imageInfo cb; cmdOverride := cmdOverride cb;
     trace := trace cb; stats := stats cb; elapsed := elapsed cb;
     state := state cb |}.

(** [Run].  [make] panics on a negative length or capacity. *)
Definition Run (cb : CustomBench) (env : Env) (threads iterations : Z)
           (commands : list string) : Result :=
  let eff := [Log InfoLevel
                "Start CustomBench run: threads (%d); iterations (%d)"
                [AInt threads; AInt iterations]] in
  if (threads <? 0)%Z then
    {| outcome := Panicked "makeslice: len out of range"; bench := cb;
       factory' := factory env; spawned := []; joined := []; effects := eff |}
  else if (0 <? threads)%Z && (iterations <? 0)%Z then
    {| outcome := Panicked "makechan: size out of range"; bench := cb;
       factory' := factory env; spawned := []; joined := []; effects := eff |}
  else
    let cb := set_state Running cb in
    let eff := eff ++ [SetState Running] in
    let start := at_start env in
    let '(err, sp) :=
      spawn cb iterations (Z.to_nat threads) 0%Z
        {| sp_factory := factory env; sp_goroutines := []; sp_eff := eff |} in
    match err with
    | Some e =>
        {| outcome := Returned (Some e); bench := cb;
           factory' := sp_factory sp; spawned := sp_goroutines sp;
           joined := []; effects := sp_eff sp |}
    | None =>
        let workers := map (join cb (at_emit env) iterations commands)
                           (sp_goroutines sp) in
        if existsb blocked workers then
          {| outcome := Deadlocked; bench := cb; factory' := sp_factory sp;
             spawned := sp_goroutines sp; joined := workers;
             effects := sp_eff sp |}
        else
          let cb := set_elapsed (at_join env - start)%Z cb in
          let eff := sp_eff sp ++
            [WaitDone;
             Log InfoLevel "CustomBench threads complete in %v time elapsed"
               [AInt (elapsed cb)]] in
          match collect (map (fun w => ch w.2) workers) with
          | None =>
              {| outcome := Deadlocked; bench := cb; factory' := sp_factory sp;
                 spawned := sp_goroutines sp; joined := workers;
                 effects := eff |}
          | Some entries =>
              let cb := set_stats (stats cb ++ entries) cb in
              let cb := set_state Completed cb in
              let eff := eff ++ [SetState Completed] in
              let '(cerr, d) := Clean (driver cb) in
              let cb := set_driver d cb in
              let eff := eff ++ [Call MClean] in
              {| outcome :=
                   Returned
                     match cerr with
                     | Some e => Some ("Error during driver final cleanup: " +:+ e)
                     | None => None
                     end;
                 bench := cb; factory' := sp_factory sp;
                 spawned := sp_goroutines sp; joined := workers;
                 effects := eff |}
          end
    end.

(** The records in the channels of the workers that [Run] has joined,
    channel after channel. *)
Definition records (r : Result) : list RunStatistics :=
  flat_map (fun w => buf (ch w.2)) (joined r).

(** The verb of a command of the list, before it is lowered: the
    command up to its first space. *)
Definition command_head (cmd : string) : string :=
  match SplitN cmd " " 2 with [head; _] => head | _ => cmd end.

(** The key under which the loop body stores the duration of a command
    of the list; none for [metrics] and [stats], and none for a verb the
    [switch] does not know. *)
Definition duration_key (cmd : string) : option string :=
  let cmd := command_head cmd in
  let verb := ToLower cmd in
  if one_of ["run"; "start"] verb then Some "run"
  else if one_of ["stop"; "kill"] verb then Some "stop"
  else if one_of ["remove"; "erase"; "delete"] verb then Some "remove"
  else if one_of ["pause"] verb then Some cmd
  else if one_of ["unpause"; "resume"] verb then Some "resume"
  else if one_of ["wait"] verb then Some cmd
  else if one_of ["metrics"; "stats"] verb then None
  else if one_of ["execsync"] verb then Some cmd
  else None.

(** What the loop body does for a timed command: it calls the method
    [op] of the driver, stores the elapsed time that [op] returns under
    [key], and counts an error of [op] under [key]. *)
Definition stored (op : D -> Timed * D) (key : string) (it it' : Iter) : Prop :=
  let '((out, elapsed, err), d) := op (it_runner it) in
  it_runner it' = d /\
  durations it' = <[key := elapsed]> (durations it) /\
  errors it' =
    match err with
    | Some _ => <[key := (default 0 (errors it !! key) + 1)%Z]> (errors it)
    | None => errors it
    end.

(** The keys stored by a list of commands. *)
Definition duration_keys (commands : list string) : gset string :=
  list_to_set (omap duration_key commands).

(** The results of the first [n] calls of [driver.New]. *)
Fixpoint constructions (cfg : Config) (n : nat) (f : F) : list (D + error) :=
  match n with
  | O => []
  | S n' => let '(r, f') := New cfg f in r :: constructions cfg n' f'
  end.

(** The goroutines that [Run] starts on the drivers [ds], the first one
    with index [i], and what the loop that starts [n] of them does. *)
Fixpoint launched (iterations : Z) (i : Z) (ds : list D) : list Goroutine :=
  match ds with
  | [] => []
  | d :: rest =>
      {| g_runner := d; g_index := i; g_stats := make_chan iterations |}
        :: launched iterations (i + 1)%Z rest
  end.

Fixpoint launch_effects (i : Z) (n : nat) : list Effect :=
  match n with
  | O => []
  | S n' => Call MNew :: Go i :: launch_effects (i + 1)%Z n'
  end.

(** The message of the error that [Run] returns for an error of the
    final [Clean]. *)
Definition cleanup_error (err : option error) : option error :=
  match err with
  | Some e => Some ("Error during driver final cleanup: " +:+ e)
  | None => None
  end.

(** [Stats] *)
Definition Stats (cb : CustomBench) : list RunStatistics :=
  match state cb with
  | Completed => stats cb
  | _ => []
  end.

(** [State] *)
Definition State_ (cb : CustomBench) : State := state cb.

(** [Elapsed] *)
Definition Elapsed (cb : CustomBench) : Duration := elapsed cb.

(** An entry that the loop body of worker [threadNum] sends. *)
Definition emitted_by (cb : CustomBench) (clock : Z -> Z -> Time) (threadNum : Z)
           (commands : list string) (entry : RunStatistics) : Prop :=
  exists i t t',
    iteration cb clock threadNum commands i t = (Done, t') /\
    buf (ch t') = buf (ch t) ++ [entry].

(** The steps of a worker around its commands: [Create], the context of the
    iteration and its cancellation, and [Close]. *)
Definition framing (e : Effect) : bool :=
  match e with
  | Call (MCreate _) | Call MClose | WithCancel | Cancel => true
  | _ => false
  end.

(** These steps for the [n] iterations from [i] on that send their record. *)
Fixpoint frames (threadNum i : Z) (n : nat) : list Effect :=
  match n with
  | O => []
  | S n' =>
      Call (MCreate (container_name threadNum i)) :: WithCancel :: Cancel
        :: frames threadNum (i + 1)%Z n'
  end.

(** No command of the driver returns an error. *)
Definition reliable : Prop :=
  (forall c d, (driver.Run c d).1.2 = None) /\
  (forall c d, (driver.Stop c d).1.2 = None) /\
  (forall c d, (driver.Remove c d).1.2 = None) /\
  (forall c d, (driver.Pause c d).1.2 = None) /\
  (forall c d, (driver.Unpause c d).1.2 = None) /\
  (forall c d, (driver.Wait c d).1.2 = None) /\
  (forall c args d, (driver.Execsync c args d).1.2 = None) /\
  (forall c d, exists reader, (driver.Stats c d).1 = inl reader).

(** The error counts after [n] commands: each is between 1 and [n], under a
    key that has a duration or under [metrics]. *)
Definition counted (n : nat) (it : Iter) : Prop :=
  forall k v, errors it !! k = Some v ->
    (1 <= v <= Z.of_nat n)%Z /\ (k ∈ dom (durations it) \/ k = "metrics").

(** The verbs of the [switch]. *)
Definition verbs : list string :=
  ["run"; "start"; "stop"; "kill"; "remove"; "erase"; "delete"; "pause";
   "unpause"; "resume"; "wait"; "metrics"; "stats"; "execsync"].

End Bench.

(** **** [Init] and [Validate] *)

(** What [Init] and [Validate] do besides computing, in program order: the
    driver calls and log lines of [Effect], the call of the driver's [Info]
    and [time.Sleep]. *)
Inductive Step :=
| Did (e : Effect)
| AskInfo
| Sleep (d : Duration).


Section Validation.
Context {Config D : Type} `{!Driver D}.


End Validation.

Section Setup.
(** [driver.Config] has the fields [DriverType] and [Path], which [Init]
    assigns; [Rest] is what else it holds.  [NewDriver] is [driver.New],
    which may return a nil driver, [Info] is the method [Info] of the driver
    and [TypeString] the method [String] of [driver.Type]. *)
Context {DType Rest F D : Type} `{!Driver D}.

Record Config := { DriverType : DType; Path : string; others : Rest }.

Context (NewDriver : Config -> F -> (option D + error) * F).
Context (Info : D -> (string + error) * D).
Context (TypeString : DType -> string).

Local Abbreviation Bench := (@CustomBench Config D).

(** [Init] *)
Definition Init (cb : Bench) (name : string) (driverType : DType)
           (binaryPath imageInfo cmdOverride : string) (trace : bool) (f : F)
  : option error * Bench * F * list Step :=
  let cb : Bench :=
    {| config := {| DriverType := driverType; Path := binaryPath;
                    others := others (config cb) |};
       benchName := benchName cb; driver := driver cb;
       imageInfo := benches.imageInfo cb; cmdOverride := benches.cmdOverride cb;
       trace := benches.trace cb; stats := stats cb; elapsed := elapsed cb;
       state := state cb |} in
  let '(r, f) := NewDriver (config cb) f in
  let steps := [Did (Call MNew)] in
  match r with
  | inr e =>
      (Some ("error during driver initialization for CustomBench: " +:+ e),
       cb, f, steps)
  | inl None =>
      (Some ("driver initialization failed for type " +:+ TypeString driverType),
       cb, f, steps)
  | inl (Some d) =>
      let '(r, d) := Info d in
      let steps := steps ++ [AskInfo] in
      match r with
      | inr e => (Some ("error during driver info query: " +:+ e), cb, f, steps)
      | inl info =>
          let steps :=
            steps ++ [Did (Log InfoLevel "driver initialized: %s" [AStr info])] in
          let '(err, d) := Clean d in
          let steps := steps ++ [Did (Call MClean)] in
          match err with
          | Some e =>
              (Some ("error during driver init cleanup: " +:+ e), cb, f, steps)
          | None =>
              (None,
               {| config := config cb; benchName := name; driver := d;
                  imageInfo := imageInfo; cmdOverride := cmdOverride;
                  trace := trace; stats := stats cb; elapsed := elapsed cb;
                  state := state cb |},
               f, steps)
          end
      end
  end.

End Setup.



End benches.

(** *** Drivers to run the benchmark on *)
Module mock.
Import effects driver.

(** A driver whose every method succeeds; its state counts the calls made
    to it. *)
Record Steady := { calls : nat }.

Definition tick (d : Steady) : Steady := {| calls := S (calls d) |}.

Definition steady_timed (out : string) (d : Steady) : Timed * Steady :=
  ((out, 1000 * Z.of_nat (S (calls d)), None)%Z, tick d).

#[export] Instance steady_driver : Driver Steady := {|
  Container := string;
  ReadCloser := unit;
  Clean d := (None, tick d);
  Create name image cmd detached tr d := (inl name, tick d);
  Run c := steady_timed "run";
  Stop c := steady_timed "stop";
  Remove c := steady_timed "remove";
  Pause c := steady_timed "pause";
  Unpause c := steady_timed "unpause";
  Wait c := steady_timed "wait";
  Stats c d := (inl tt, tick d);
  Execsync c args := steady_timed "exec";
  Close d := (None, tick d)
|}.

(** Its factory never fails. *)
Definition steady_new (cfg : unit) (f : unit) : (Steady + error) * unit :=
  (inl {| calls := 0 |}, f).

(** A driver that follows a script: [Create] fails for the container names
    listed in [create_fails], and each flag makes one method fail. *)
Record Scripted := {
  create_fails : list string;
  stop_fails : bool;
  stats_fails : bool;
  close_fails : bool;
  clean_fails : bool
}.

Definition scripted_timed (fails : bool) (out : string) (d : Scripted)
  : Timed * Scripted :=
  ((out, 7%Z, if fails then Some (out +:+ ": failed") else None), d).

#[export] Instance scripted_driver : Driver Scripted := {|
  Container := string;
  ReadCloser := unit;
  Clean d := (if clean_fails d then Some "clean: failed" else None, d);
  Create name image cmd detached tr d :=
    (if existsb (String.eqb name) (create_fails d)
     then inr "create: failed" else inl name, d);
  Run c := scripted_timed false "run";
  Stop c d := scripted_timed (stop_fails d) "stop" d;
  Remove c := scripted_timed false "remove";
  Pause c := scripted_timed false "pause";
  Unpause c := scripted_timed false "unpause";
  Wait c := scripted_timed false "wait";
  Stats c d := (if stats_fails d then inr "stats: failed" else inl tt, d);
  Execsync c args := scripted_timed false "exec";
  Close d := (if close_fails d then Some "close: failed" else None, d)
|}.

Definition sound : Scripted :=
  {| create_fails := []; stop_fails := false; stats_fails := false;
     close_fails := false; clean_fails := false |}.

(** Its factory hands out the prepared results one by one. *)
Definition scripted_new (cfg : unit) (f : list (Scripted + error))
  : (Scripted + error) * list (Scripted + error) :=
  match f with
  | r :: rest => (r, rest)
  | [] => (inr "no driver left", [])
  end.

Import benches.

(** A benchmark as [Init] leaves it, on the coordinator's driver [d]. *)
Definition fresh {D : Type} (d : D) : @CustomBench unit D :=
  {| config := tt; benchName := "custom"; driver := d;
     imageInfo := "busybox"; cmdOverride := "sleep 30"; trace := false;
     stats := []; elapsed := 0%Z; state := Created |}.

(** A clock: worker [t] ends its iteration [i] at [100 + 10 t + i]. *)
Definition env_of {F : Type} (f : F) : @Env F :=
  {| factory := f; at_start := 100%Z; at_join := 200%Z;
     at_emit := fun t i => (100 + 10 * t + i)%Z |}.

(** A benchmark with records from an earlier run, in a given state. *)
Definition sample : RunStatistics :=
  {| Durations := {[ "run" := 5%Z ]}; Errors := ∅; Timestamp := 1%Z |}.

Definition used (st : State) : @CustomBench unit Steady :=
  {| config := tt; benchName := "custom"; driver := {| calls := 3 |};
     imageInfo := "busybox"; cmdOverride := "sleep 30"; trace := false;
     stats := [sample; sample]; elapsed := 40%Z; state := st |}.

(** A shell on which every command fails; the system counts the commands
    it has run. *)
Definition failing_shell (cmd : string) (os : nat)
  : (string * option error) * nat :=
  (("Cannot connect to the Docker daemon", Some "exit status 1"), S os).

Definition docker : DockerDriver.DockerDriver :=
  {| DockerDriver.dockerBinary := "/usr/bin/docker";
     DockerDriver.dockerInfo := "";
     DockerDriver.logDriver := "" |}.

(** A text of the given lines, each ended by a line feed. *)
Definition text (lines : list string) : string :=
  String.concat EmptyString
    (map (fun l => l +:+ String gostrings.LF EmptyString) lines).

Definition version_text : string :=
  text ["Client:"; " Version:           20.10.7"; " API version:       1.41";
        " Go version:        go1.13.8"; "";
        "Server:"; " Engine:"; "  Version:          20.10.7";
        "  API version:      1.41 (minimum version 1.12)"].

Definition info_text : string :=
  text [" Containers: 0"; " Storage Driver: overlay2";
        "  Backing Filesystem: extfs"; " Kernel Version: 5.4.0-80-generic"].

(** A host that keeps the command lines run on it.  Its Docker client
    answers [version] and [info] with the two texts and the given errors. *)
Definition Host : Type := list string.

Definition client (verr ierr : option error) (bin args : string) (os : Host)
  : (string * option error) * Host :=
  let os := os ++ [bin +:+ " " +:+ args] in
  if String.eqb args "version" then ((version_text, verr), os)
  else if String.eqb args "info" then ((info_text, ierr), os)
  else ((EmptyString, None), os).

Definition timed_client (bin args : string) (os : Host)
  : (string * Z * option error) * Host :=
  ((EmptyString, 1000%Z, None), os ++ [bin +:+ " " +:+ args]).

(** Only [docker] is installed on the host. *)
Definition resolve (bin : string) (os : Host) : string + error :=
  if String.eqb bin "docker" then inl "/usr/bin/docker"
  else inr "executable file not found in $PATH".

(** The text that [Info] builds on this host, and the driver that holds
    it. *)
Definition docker_info : string :=
  "docker driver (binary: /usr/bin/docker)" +:+ String gostrings.LF EmptyString
  +:+ "[CLIENT:20.10.7|API:1.41]"
  +:+ "[SERVER:20.10.7|API:1.41 (minimum version 1.12)"
  +:+ "|Storage:overlay2|BackingFS:extfs|Kernel:5.4.0-80-generic]".

Definition ready (logDriver : string) : DockerDriver.DockerDriver :=
  {| DockerDriver.dockerBinary := "/usr/bin/docker";
     DockerDriver.dockerInfo := docker_info;
     DockerDriver.logDriver := logDriver |}.

Definition test_container : DockerDriver.DockerContainer :=
  DockerDriver.newDockerContainer "bb-ctr-0-0" "busybox" "sleep 30" true false.

(** [driver.New], [Info] and [String] for the driver that never fails; the
    factory counts the drivers it has made. *)
Definition new_steady (cfg : @Config string unit) (made : nat)
  : (option Steady + error) * nat :=
  (inl (Some {| calls := 0 |}), S made).

Definition steady_info (d : Steady) : (string + error) * Steady :=
  (inl "steady driver", tick d).

Definition blank : @CustomBench (@Config string unit) Steady :=
  {| config := {| DriverType := EmptyString; Path := EmptyString; others := tt |};
     benchName := EmptyString; driver := {| calls := 0 |};
     imageInfo := EmptyString; cmdOverride := EmptyString; trace := false;
     stats := []; elapsed := 0%Z; state := Created |}.

End mock.

(** *** The runs the claims are tried on *)
Module scenarios.
Import effects benches mock.

(** One worker, one iteration of [run], [stats], [stop], [remove] on the
    driver that never fails. *)
Definition stats_thread : Exit * @Thread Steady :=
  iteration "bb-ctr" (fresh {| calls := 0 |}) (at_emit (env_of tt)) 0
            ["run"; "stats"; "stop"; "remove"] 0
            {| runner := {| calls := 0 |}; ch := make_chan 1; eff := [] |}.

(** Two threads and three iterations of [run], [stop], [remove] on the driver
    that never fails. *)
Definition steady_run : @Result unit unit Steady :=
  Run steady_new "bb-ctr" (fresh {| calls := 0 |}) (env_of tt) 2 3
      ["run"; "stop"; "remove"].

(** A second run on the benchmark that [steady_run] leaves. *)
Definition steady_rerun : @Result unit unit Steady :=
  Run steady_new "bb-ctr" (bench steady_run) (env_of tt) 1 2 ["run"; "kill"].

(** Three threads and four iterations; the driver of thread 1 fails the
    [Create] of its iteration 2. *)
Definition faulty : Scripted :=
  {| create_fails := ["bb-ctr-1-2"]; stop_fails := false; stats_fails := false;
     close_fails := false; clean_fails := false |}.

Definition faulty_env : @Env (list (Scripted + driver.error)) :=
  env_of [inl sound; inl faulty; inl sound].

Definition faulty_run : @Result unit (list (Scripted + driver.error)) Scripted :=
  Run scripted_new "bb-ctr" (fresh sound) faulty_env 3 4 ["run"; "stop"; "remove"].

(** Worker 1 after its iterations 0 and 1. *)
Definition faulty_thread : @Thread Scripted :=
  (loop "bb-ctr" (fresh sound) (at_emit faulty_env) 1 ["run"; "stop"; "remove"]
        2 0 {| runner := faulty; ch := make_chan 4; eff := [] |}).2.

(** Three threads; the construction of the driver of thread 1 fails. *)
Definition broken_env : @Env (list (Scripted + driver.error)) :=
  env_of [inl sound; inr "no daemon"].

Definition broken_run : @Result unit (list (Scripted + driver.error)) Scripted :=
  Run scripted_new "bb-ctr" (fresh sound) broken_env 3 2 ["run"; "stop"; "remove"].

(** The verb [START] on a container of the driver that never fails. *)
Definition steady_container : @driver.Container Steady steady_driver := "bb-ctr-0-0".

Definition steady_iter : @Iter Steady :=
  {| it_runner := {| calls := 0 |}; errors := ∅; durations := ∅; it_eff := [] |}.

(** A driver whose [Stop] and [Stats] always fail; one thread and two
    iterations on it. *)
Definition flaky : Scripted :=
  {| create_fails := []; stop_fails := true; stats_fails := true;
     close_fails := false; clean_fails := false |}.

Definition flaky_env : @Env (list (Scripted + driver.error)) := env_of [inl flaky].

Definition flaky_commands : list string := ["run"; "stop"; "Kill"; "stats"; "remove"].

Definition flaky_run : @Result unit (list (Scripted + driver.error)) Scripted :=
  Run scripted_new "bb-ctr" (fresh sound) flaky_env 1 2 flaky_commands.

Definition flaky_entry : RunStatistics := hd sample (records flaky_run).

Definition flaky_container : @driver.Container Scripted scripted_driver := "bb-ctr-0-0".

Definition flaky_iter : @Iter Scripted :=
  {| it_runner := flaky; errors := ∅; durations := ∅; it_eff := [] |}.

(** Two threads and no iteration; a negative number of threads. *)
Definition idle_run : @Result unit unit Steady :=
  Run steady_new "bb-ctr" (fresh {| calls := 0 |}) (env_of tt) 2 0 ["run"; "stop"].


End scenarios.

(** ** Part II: properties *)

(** *** Strings *)
Section Strings.
Import gostrings.

Lemma ToLower_same_letters s t : same_letters s t -> ToLower s = ToLower t.
Proof.
  induction 1 as [|a b s t Hab _ IH]; [reflexivity|].
  cbn [ToLower]. now rewrite Hab, IH.
Qed.

Lemma SplitN_1 s sep : SplitN s sep 1 = [s].
Proof. now destruct s. Qed.

Lemma SplitN_2_cases s :
  SplitN s " " 2 = [s] \/ exists head rest, SplitN s " " 2 = [head; rest].
Proof.
  induction s as [|c s IH]; [now left|].
  cbn [SplitN]. destruct (Ascii.eqb c " ").
  - right. rewrite SplitN_1. eexists _, _. reflexivity.
  - destruct IH as [-> | (h & r & ->)].
    + now left.
    + right. eexists _, _. reflexivity.
Qed.

End Strings.

(** *** The worker *)
Section Worker.
Import effects gostrings benches.
Context {Config D : Type} {Drv : driver.Driver D}.
Context (prefix : string).

Implicit Types (cb : @CustomBench Config D) (t : @Thread D) (it : @Iter D).
Implicit Types (clock : Z -> Z -> Time) (commands : list string).

Local Abbreviation created cb tn i d :=
  (driver.Create (container_name prefix tn i) (imageInfo cb) (cmdOverride cb)
                 true (trace cb) d).

Lemma log_error_durations key name err out el it :
  durations (log_error key name err out el it) = <[key := el]> (durations it).
Proof. unfold log_error. now destruct err. Qed.

Lemma timed_durations m op key name it :
  exists el, durations (timed m op key name it) = <[key := el]> (durations it).
Proof.
  unfold timed. destruct (op (it_runner it)) as [[[out el] err] d].
  exists el. now rewrite log_error_durations.
Qed.

(** One command stores at most one duration, under [duration_key]. *)
Lemma command_durations ctr name cmd it :
  match duration_key cmd with
  | Some k => exists el,
      durations (command ctr name cmd it) = <[k := el]> (durations it)
  | None => durations (command ctr name cmd it) = durations it
  end.
Proof.
  unfold command, duration_key, command_head.
  destruct (SplitN_2_cases cmd) as [-> | (h & r & ->)]; cbv beta iota zeta;
    repeat (match goal with
            | |- context [if one_of ?l ?v then _ else _] => destruct (one_of l v)
            end);
    try reflexivity;
    match goal with
    | |- context [timed ?m ?op ?k ?n ?i] =>
        destruct (timed_durations m op k n i) as [el ->]; now exists el
    | |- context [driver.Stats ?c ?d] =>
        now destruct (driver.Stats c d) as [[rd|e] d']
    end.
Qed.

Lemma command_dom ctr name cmd it :
  dom (durations (command ctr name cmd it))
  = dom (durations it) ∪ duration_keys [cmd].
Proof.
  pose proof (command_durations ctr name cmd it) as Hc.
  unfold duration_keys. cbn [omap list_omap].
  destruct (duration_key cmd) as [k|].
  - destruct Hc as [el ->]. rewrite dom_insert_L. set_solver.
  - rewrite Hc. set_solver.
Qed.

Lemma duration_keys_cons cmd commands :
  duration_keys (cmd :: commands) = duration_keys [cmd] ∪ duration_keys commands.
Proof.
  unfold duration_keys. cbn [omap list_omap].
  destruct (duration_key cmd); set_solver.
Qed.

Lemma commands_dom ctr name commands it :
  dom (durations (fold_left (fun it cmd => command ctr name cmd it) commands it))
  = dom (durations it) ∪ duration_keys commands.
Proof.
  revert it. induction commands as [|cmd commands IH]; intros it.
  - cbn. unfold duration_keys. set_solver.
  - cbn [fold_left]. rewrite IH, command_dom, (duration_keys_cons cmd commands).
    set_solver.
Qed.

(** No command stores a duration under [metrics]. *)
Lemma duration_key_not_metrics cmd : duration_key cmd <> Some "metrics".
Proof.
  unfold duration_key.
  remember (command_head cmd) as verb.
  intros Hk.
  repeat match type of Hk with
         | (if ?c then _ else _) = _ => destruct c eqn:?
         end;
    try discriminate Hk;
    injection Hk as ->;
    match goal with
    | Hv : one_of _ (ToLower "metrics") = true |- _ =>
        vm_compute in Hv; discriminate Hv
    end.
Qed.

(** **** One iteration *)

Lemma iteration_inv cb clock tn commands i t e t' :
  iteration prefix cb clock tn commands i t = (e, t') ->
  match e with
  | Done => exists ctr entry,
      (created cb tn i (runner t)).1 = inl ctr /\
      (Z.of_nat (length (buf (ch t))) < cap (ch t))%Z /\
      ch t' = {| buf := buf (ch t) ++ [entry]; cap := cap (ch t);
                 closed := closed (ch t) |} /\
      Timestamp entry = clock tn i /\
      dom (Durations entry) = duration_keys commands
  | Aborted => exists err,
      (created cb tn i (runner t)).1 = inr err /\
      ch t' = ch t /\
      runner t' = (created cb tn i (runner t)).2
  | Blocked =>
      (cap (ch t) <= Z.of_nat (length (buf (ch t))))%Z /\ ch t' = ch t
  end.
Proof.
  unfold iteration.
  destruct (created cb tn i (runner t)) as [[ctr|err] d].
  - unfold send. destruct (Z.ltb_spec (Z.of_nat (length (buf (ch t)))) (cap (ch t)));
      intros [= <- <-].
    + eexists ctr, _. split; [reflexivity|]. split; [assumption|].
      split; [reflexivity|]. split; [reflexivity|].
      cbn [Durations durations emit]. rewrite commands_dom.
      cbn [durations]. rewrite dom_empty_L. set_solver.
    + split; [assumption | reflexivity].
  - intros [= <- <-]. exists err. repeat split.
Qed.

(** **** The loop *)

Lemma loop_inv cb clock tn commands n : forall i t e t',
  loop prefix cb clock tn commands n i t = (e, t') ->
  exists new,
    buf (ch t') = buf (ch t) ++ new /\
    cap (ch t') = cap (ch t) /\
    closed (ch t') = closed (ch t) /\
    (forall j entry, new !! j = Some entry ->
       Timestamp entry = clock tn (i + Z.of_nat j)%Z /\
       dom (Durations entry) = duration_keys commands) /\
    match e with
    | Done => length new = n
    | Aborted =>
        (length new < n)%nat /\
        exists d err, (created cb tn (i + Z.of_nat (length new))%Z d).1 = inr err
    | Blocked =>
        (length new < n)%nat /\
        (cap (ch t) <= Z.of_nat (length (buf (ch t)) + length new))%Z
    end.
Proof.
  induction n as [|n IH]; intros i t e t'; cbn [loop].
  - intros [= <- <-]. exists []. rewrite app_nil_r.
    do 3 (split; [reflexivity|]). split; [|reflexivity].
    intros j entry Hj. now rewrite lookup_nil in Hj.
  - destruct (iteration prefix cb clock tn commands i t) as [e1 t1] eqn:Hit.
    apply iteration_inv in Hit.
    destruct e1.
    + destruct Hit as (ctr & entry & _ & Hlt & Hch & Hts & Hdom).
      intros Hloop. apply IH in Hloop.
      destruct Hloop as (new & Hbuf & Hcap & Hcl & Hent & He).
      rewrite Hch in Hbuf, Hcap, Hcl, He. cbn [buf cap closed] in Hbuf, Hcap, Hcl, He.
      exists (entry :: new). rewrite Hbuf, <- app_assoc.
      do 3 (split; [assumption || reflexivity|]). split.
      * intros [|j] x Hx; cbn in Hx.
        -- injection Hx as <-. now rewrite Z.add_0_r.
        -- apply Hent in Hx.
           replace (i + Z.of_nat (S j))%Z with (i + 1 + Z.of_nat j)%Z by lia.
           assumption.
      * cbn [length]. destruct e.
        -- now rewrite He.
        -- destruct He as (Hlen & d & err & Hc). split; [lia|].
           exists d, err.
           replace (i + Z.of_nat (S (length new)))%Z
             with (i + 1 + Z.of_nat (length new))%Z by lia.
           assumption.
        -- destruct He as (Hlen & Hfull). split; [lia|].
           rewrite length_app in Hfull. cbn [length] in Hfull. lia.
    + intros [= <- <-]. destruct Hit as (err & Hc & Hch & _).
      exists []. rewrite Hch, app_nil_r.
      do 3 (split; [reflexivity|]). split.
      * intros j entry Hj. now rewrite lookup_nil in Hj.
      * cbn [length]. split; [lia|].
        exists (runner t), err. now rewrite Z.add_0_r.
    + intros [= <- <-]. destruct Hit as (Hfull & Hch).
      exists []. rewrite Hch, app_nil_r.
      do 3 (split; [reflexivity|]). split.
      * intros j entry Hj. now rewrite lookup_nil in Hj.
      * cbn [length]. split; lia.
Qed.

(** The loop splits at any iteration it reaches. *)
Lemma loop_app cb clock tn commands a b : forall i t,
  loop prefix cb clock tn commands (a + b) i t
  = match loop prefix cb clock tn commands a i t with
    | (Done, t') => loop prefix cb clock tn commands b (i + Z.of_nat a)%Z t'
    | stopped => stopped
    end.
Proof.
  induction a as [|a IH]; intros i t.
  - cbn. now rewrite Z.add_0_r.
  - cbn [Nat.add loop].
    destruct (iteration prefix cb clock tn commands i t) as [[] t1]; try reflexivity.
    rewrite IH. replace (i + 1 + Z.of_nat a)%Z with (i + Z.of_nat (S a))%Z by lia.
    reflexivity.
Qed.

(** **** [runThread] *)

Lemma runThread_inv cb clock d0 tn iterations commands c0 e w :
  runThread prefix cb clock d0 tn iterations commands c0 = (e, w) ->
  exists t,
    loop prefix cb clock tn commands (Z.to_nat iterations) 0%Z
         {| runner := d0; ch := c0; eff := [] |} = (e, t) /\
    match e with
    | Blocked => w = t
    | _ => runner w = (driver.Close (runner t)).2 /\
           ch w = close (ch t) /\
           exists post, eff w = eff t ++ Call MClose :: post
    end.
Proof.
  unfold runThread.
  destruct (loop _ _ _ _ _ _ _ _) as [e1 t]. intros Hr. exists t.
  destruct e1; try (injection Hr as <- <-; now split);
    destruct (driver.Close (runner t)) as [[err|] d];
    injection Hr as <- <-; (split; [reflexivity|]); cbn [runner ch eff];
    (do 2 (split; [reflexivity|]));
    solve [ eexists; rewrite <- app_assoc; reflexivity
          | exists []; reflexivity ].
Qed.

(** A worker whose channel has room for its iterations never blocks, and
    leaves its channel closed with one record for each iteration that it
    completed; it completed all of them unless a [Create] failed. *)
Lemma runThread_room cb clock d0 tn iterations commands c0 e w :
  runThread prefix cb clock d0 tn iterations commands c0 = (e, w) ->
  (Z.of_nat (length (buf c0)) + Z.of_nat (Z.to_nat iterations) <= cap c0)%Z ->
  e <> Blocked /\
  closed (ch w) = true /\
  exists new,
    buf (ch w) = buf c0 ++ new /\
    (forall j entry, new !! j = Some entry ->
       Timestamp entry = clock tn (Z.of_nat j) /\
       dom (Durations entry) = duration_keys commands) /\
    match e with
    | Done => length new = Z.to_nat iterations
    | _ => (length new < Z.to_nat iterations)%nat /\
           exists d err, (created cb tn (Z.of_nat (length new)) d).1 = inr err
    end.
Proof.
  intros Hrun Hroom. apply runThread_inv in Hrun. destruct Hrun as (t & Hloop & Hw).
  apply loop_inv in Hloop. destruct Hloop as (new & Hbuf & Hcap & Hcl & Hent & He).
  cbn [ch buf cap closed] in Hbuf, Hcap, Hcl, He.
  assert (Hent' : forall j entry, new !! j = Some entry ->
            Timestamp entry = clock tn (Z.of_nat j) /\
            dom (Durations entry) = duration_keys commands)
    by (intros j entry Hj; apply Hent in Hj; now rewrite Z.add_0_l in Hj).
  destruct e.
  - destruct Hw as (_ & -> & _). split; [discriminate|]. split; [reflexivity|].
    exists new. cbn [close buf]. split; [assumption|]. split; [exact Hent'|].
    exact He.
  - destruct Hw as (_ & -> & _). split; [discriminate|]. split; [reflexivity|].
    exists new. cbn [close buf]. split; [assumption|]. split; [exact Hent'|].
    now rewrite Z.add_0_l in He.
  - destruct He as (Hlen & Hfull). rewrite Nat2Z.inj_add in Hfull. lia.
Qed.

(** The worker reads the image, the command and the trace flag of the
    benchmark, not its state. *)
Lemma iteration_set_state s cb clock tn commands i t :
  iteration prefix (set_state s cb) clock tn commands i t
  = iteration prefix cb clock tn commands i t.
Proof. reflexivity. Qed.

Lemma loop_set_state s cb clock tn commands n : forall i t,
  loop prefix (set_state s cb) clock tn commands n i t
  = loop prefix cb clock tn commands n i t.
Proof.
  induction n as [|n IH]; intros i t; [reflexivity|].
  cbn [loop]. rewrite iteration_set_state.
  destruct (iteration prefix cb clock tn commands i t) as [[] t1]; auto.
Qed.

Lemma runThread_set_state s cb clock d0 tn iterations commands c0 :
  runThread prefix (set_state s cb) clock d0 tn iterations commands c0
  = runThread prefix cb clock d0 tn iterations commands c0.
Proof. unfold runThread. now rewrite loop_set_state. Qed.

(** **** A failure of [Create] *)

Lemma iteration_aborts cb clock tn commands i t err :
  (created cb tn i (runner t)).1 = inr err ->
  exists t',
    iteration prefix cb clock tn commands i t = (Aborted, t') /\
    ch t' = ch t /\
    runner t' = (created cb tn i (runner t)).2.
Proof.
  unfold iteration. destruct (created cb tn i (runner t)) as [r d].
  cbn [fst snd]. intros ->. eexists. split; [reflexivity|]. now split.
Qed.

Lemma runThread_aborts cb clock d0 tn iterations commands c0 i t_i err :
  (0 <= i < iterations)%Z ->
  loop prefix cb clock tn commands (Z.to_nat i) 0%Z
       {| runner := d0; ch := c0; eff := [] |} = (Done, t_i) ->
  (created cb tn i (runner t_i)).1 = inr err ->
  exists w,
    runThread prefix cb clock d0 tn iterations commands c0 = (Aborted, w) /\
    ch w = close (ch t_i) /\
    runner w = (driver.Close (created cb tn i (runner t_i)).2).2 /\
    exists pre post, eff w = pre ++ Call MClose :: post.
Proof.
  intros Hi Hloop Hfail. unfold runThread.
  replace (Z.to_nat iterations)
    with (Z.to_nat i + S (Z.to_nat (iterations - i - 1)))%nat by lia.
  rewrite loop_app, Hloop. cbn [loop]. rewrite Z.add_0_l, Z2Nat.id by lia.
  destruct (iteration_aborts cb clock tn commands i t_i err Hfail)
    as (t' & -> & Hch & Hrun).
  rewrite Hrun.
  destruct (driver.Close (created cb tn i (runner t_i)).2) as [[e|] d];
    eexists; (split; [reflexivity|]); cbn [ch runner eff fst snd];
    rewrite Hch; (do 2 (split; [reflexivity|])).
  - exists (eff t'), [Log ErrorLevel "error on closing driver: %v" [AErr e]].
    now rewrite <- app_assoc.
  - now exists (eff t'), [].
Qed.

End Worker.

(** *** The records of a worker *)
Section Records.
Import effects gostrings benches.
Context {Config D : Type} {Drv : driver.Driver D}.
Context (prefix : string).

Implicit Types (cb : @CustomBench Config D) (t : @Thread D) (it : @Iter D).

Lemma timed_stored m op key name it :
  stored op key it (timed m op key name it).
Proof.
  unfold stored, timed. destruct (op (it_runner it)) as [[[out el] err] d].
  unfold log_error. now destruct err.
Qed.

Lemma duration_key_metrics cmd :
  In (ToLower (command_head cmd)) ["metrics"; "stats"] -> duration_key cmd = None.
Proof.
  unfold duration_key. intros [<- | [<- | []]]; reflexivity.
Qed.

(** The record of an iteration has the keys of the commands, and never the
    key [metrics]. *)
Lemma duration_keys_spec commands :
  ("metrics" ∉ duration_keys commands) /\
  (forall cmd k, In cmd commands -> duration_key cmd = Some k ->
     k ∈ duration_keys commands).
Proof.
  unfold duration_keys. split.
  - rewrite elem_of_list_to_set, list_elem_of_omap.
    intros (cmd & _ & Hk). now apply duration_key_not_metrics in Hk.
  - intros cmd k Hin Hk. rewrite elem_of_list_to_set, list_elem_of_omap.
    exists cmd. split; [now apply list_elem_of_In | exact Hk].
Qed.

Lemma iteration_record cb clock tn commands i t t' :
  iteration prefix cb clock tn commands i t = (Done, t') ->
  exists entry,
    buf (ch t') = buf (ch t) ++ [entry] /\
    dom (Durations entry) = duration_keys commands.
Proof.
  intros Hit. apply iteration_inv in Hit.
  destruct Hit as (ctr & entry & _ & _ & Hch & _ & Hdom).
  exists entry. rewrite Hch. now split.
Qed.

Local Ltac switch_on Hlow :=
  rewrite Hlow;
  repeat match goal with
         | |- context [one_of ?l ?v] =>
             let b := eval vm_compute in (one_of l v) in
             change (one_of l v) with b
         end;
  cbv iota.

(** A verb that is an alias, up to the case of its letters, calls the method
    of the alias and stores under its canonical key. *)
Lemma command_alias ctr name cmd v it :
  same_letters (command_head cmd) v ->
  (In v ["run"; "start"] ->
   duration_key cmd = Some "run" /\
   stored (driver.Run ctr) "run" it (command ctr name cmd it)) /\
  (In v ["stop"; "kill"] ->
   duration_key cmd = Some "stop" /\
   stored (driver.Stop ctr) "stop" it (command ctr name cmd it)) /\
  (In v ["remove"; "erase"; "delete"] ->
   duration_key cmd = Some "remove" /\
   stored (driver.Remove ctr) "remove" it (command ctr name cmd it)) /\
  (In v ["unpause"; "resume"] ->
   duration_key cmd = Some "resume" /\
   stored (driver.Unpause ctr) "resume" it (command ctr name cmd it)).
Proof.
  intros Hsame. apply ToLower_same_letters in Hsame.
  (split; [|split; [|split]]); intros Hin; cbn [In] in Hin;
    repeat match type of Hin with
           | _ \/ _ => destruct Hin as [Hin | Hin]
           end;
    try contradiction; subst v;
    match type of Hsame with
    | _ = ToLower ?lit =>
        let l := eval vm_compute in (ToLower lit) in
        change (ToLower lit) with l in Hsame
    end;
    (split; [unfold duration_key; switch_on Hsame; reflexivity|]);
    unfold command; unfold command_head in Hsame;
    destruct (SplitN_2_cases cmd) as [Hs | (h & r & Hs)];
    rewrite Hs in Hsame |- *; cbv beta iota zeta;
    switch_on Hsame;
    match goal with
    | |- stored _ _ _ (timed ?m ?op ?k ?n ?it') => exact (timed_stored m op k n it')
    end.
Qed.

Lemma shouted_keys :
  duration_keys ["START"; "Kill"; "DELETE"] = {[ "run"; "stop"; "remove" ]}.
Proof.
  unfold duration_keys.
  change (omap duration_key ["START"; "Kill"; "DELETE"])
    with ["run"; "stop"; "remove"].
  cbn [list_to_set]. set_solver.
Qed.

End Records.

(** *** The coordinator *)
Section Coordinator.
Import effects gostrings benches.
Context {Config F D : Type} {Drv : driver.Driver D}.
Context (New : Config -> F -> (D + driver.error) * F) (prefix : string).

Implicit Types (cb : @CustomBench Config D) (env : @Env F) (sp : @Spawn F D).
Implicit Types (commands : list string) (ds : list D).

(** **** The driver factory *)

(** Either the first [n] constructions succeed or one of them is the first
    to fail. *)
Lemma constructions_cases cfg n : forall f,
  (exists ds, length ds = n /\ constructions New cfg n f = map inl ds) \/
  (exists ds e0, (length ds < n)%nat /\
     constructions New cfg (S (length ds)) f = map inl ds ++ [inr e0]).
Proof.
  induction n as [|n IH]; intros f.
  - left. now exists [].
  - destruct (New cfg f) as [[d|e0] f1] eqn:Hnew.
    + destruct (IH f1) as [(ds & Hlen & Hc) | (ds & e1 & Hlen & Hc)].
      * left. exists (d :: ds). cbn. rewrite Hnew, Hc. split; [lia | reflexivity].
      * right. exists (d :: ds), e1. split; [cbn; lia|].
        cbn [length]. cbn [constructions] in Hc |- *. rewrite Hnew.
        cbn [map app]. now f_equal.
    + right. exists [], e0. split; [cbn; lia|]. cbn. now rewrite Hnew.
Qed.

Lemma spawn_ok cb iterations ds : forall i sp,
  constructions New (config cb) (length ds) (sp_factory sp) = map inl ds ->
  exists f',
    spawn New cb iterations (length ds) i sp
    = (None, {| sp_factory := f';
                sp_goroutines := sp_goroutines sp ++ launched iterations i ds;
                sp_eff := sp_eff sp ++ launch_effects i (length ds) |}).
Proof.
  induction ds as [|d ds IH]; intros i sp Hc.
  - exists (sp_factory sp). destruct sp. cbn. now rewrite !app_nil_r.
  - cbn [length constructions spawn] in Hc |- *.
    destruct (New (config cb) (sp_factory sp)) as [r f1].
    cbn [map] in Hc. injection Hc as -> Hc.
    edestruct (IH (i + 1)%Z) as [f' ->]; [exact Hc|].
    exists f'. cbn [sp_goroutines sp_eff launched launch_effects].
    now rewrite <- !app_assoc.
Qed.

Lemma spawn_fail cb iterations ds e0 : forall n i sp,
  (length ds < n)%nat ->
  constructions New (config cb) (S (length ds)) (sp_factory sp)
    = map inl ds ++ [inr e0] ->
  exists f',
    spawn New cb iterations n i sp
    = (Some ("error creating new driver for thread "
               +:+ itoa (i + Z.of_nat (length ds)) +:+ ": " +:+ e0),
       {| sp_factory := f';
          sp_goroutines := sp_goroutines sp ++ launched iterations i ds;
          sp_eff := sp_eff sp ++ launch_effects i (length ds) ++ [Call MNew] |}).
Proof.
  induction ds as [|d ds IH]; intros n i sp Hlt Hc;
    (destruct n as [|n]; [cbn in Hlt; lia|]).
  - cbn [length constructions spawn] in Hc |- *.
    destruct (New (config cb) (sp_factory sp)) as [r f1].
    cbn in Hc. injection Hc as ->.
    exists f1. cbn [launched launch_effects app]. now rewrite Z.add_0_r, app_nil_r.
  - cbn [length] in Hlt, Hc. cbn [constructions] in Hc. cbn [spawn].
    destruct (New (config cb) (sp_factory sp)) as [r f1].
    cbn [map app] in Hc. injection Hc as -> Hc.
    edestruct (IH n (i + 1)%Z) as [f' ->]; [lia | exact Hc |].
    exists f'. cbn [sp_goroutines sp_eff launched launch_effects length].
    rewrite <- !app_assoc.
    replace (i + 1 + Z.of_nat (length ds))%Z
      with (i + Z.of_nat (S (length ds)))%Z by lia.
    reflexivity.
Qed.

(** **** The goroutines of a run *)

Lemma launched_length iterations ds : forall i,
  length (launched iterations i ds) = length ds.
Proof. induction ds as [|d ds IH]; intros i; cbn; [reflexivity | now rewrite IH]. Qed.

Lemma launched_lookup iterations ds : forall i k g,
  launched iterations i ds !! k = Some g ->
  exists d, ds !! k = Some d /\
    g = {| g_runner := d; g_index := (i + Z.of_nat k)%Z;
           g_stats := make_chan iterations |}.
Proof.
  induction ds as [|d ds IH]; intros i k g; [now rewrite lookup_nil|].
  destruct k as [|k]; cbn [launched lookup list_lookup].
  - intros [= <-]. exists d. now rewrite Z.add_0_r.
  - intros Hk. apply IH in Hk. destruct Hk as (d' & Hd & ->).
    exists d'. split; [assumption|]. f_equal. lia.
Qed.

(** A worker started by [Run] has a channel as large as its number of
    iterations: it is never blocked and it closes its channel. *)
Lemma join_launched cb clock iterations commands ds i k g :
  (0 <= iterations)%Z ->
  launched iterations i ds !! k = Some g ->
  (join prefix cb clock iterations commands g).1 <> Blocked /\
  closed (ch (join prefix cb clock iterations commands g).2) = true.
Proof.
  intros Hit Hk. apply launched_lookup in Hk. destruct Hk as (d & _ & ->).
  unfold join. cbn [g_runner g_index g_stats].
  destruct (runThread _ _ _ _ _ _ _ _) as [e w] eqn:Hrun.
  apply runThread_room in Hrun; [|cbn [make_chan buf cap length]; lia].
  cbn [fst snd]. tauto.
Qed.

Lemma not_blocked_all (ws : list (Exit * @Thread D)) :
  (forall k w, ws !! k = Some w -> w.1 <> Blocked) ->
  existsb blocked ws = false.
Proof.
  induction ws as [|w ws IH]; intros Hall; [reflexivity|].
  cbn [existsb]. rewrite IH by (intros k; apply (Hall (S k))).
  specialize (Hall 0%nat w eq_refl). unfold blocked.
  destruct w.1; [reflexivity | reflexivity | congruence].
Qed.

Lemma collect_closed (ws : list (Exit * @Thread D)) :
  (forall k w, ws !! k = Some w -> closed (ch w.2) = true) ->
  collect (map (fun w => ch w.2) ws)
  = Some (flat_map (fun w => buf (ch w.2)) ws).
Proof.
  induction ws as [|w ws IH]; intros Hall; [reflexivity|].
  cbn [map collect flat_map]. rewrite IH by (intros k; apply (Hall (S k))).
  unfold range. now rewrite (Hall 0%nat w eq_refl).
Qed.

(** **** The three ways [Run] ends *)

Local Abbreviation prologue threads iterations :=
  [Log InfoLevel "Start CustomBench run: threads (%d); iterations (%d)"
     [AInt threads; AInt iterations]].

Local Abbreviation epilogue env :=
  [WaitDone;
   Log InfoLevel "CustomBench threads complete in %v time elapsed"
     [AInt (at_join env - at_start env)%Z];
   SetState Completed;
   Call MClean].

Lemma Run_panics cb env threads iterations commands :
  (threads < 0 \/ (0 < threads /\ iterations < 0))%Z ->
  exists msg,
    Run New prefix cb env threads iterations commands
    = {| outcome := Panicked msg; bench := cb; factory' := factory env;
         spawned := []; joined := [];
         effects := prologue threads iterations |}.
Proof.
  intros Hneg. unfold Run.
  destruct (Z.ltb_spec threads 0); [eexists; reflexivity|].
  destruct (Z.ltb_spec 0 threads); [|lia].
  destruct (Z.ltb_spec iterations 0); [|lia].
  eexists; reflexivity.
Qed.

Lemma Run_construction_fails cb env threads iterations commands ds e0 :
  (0 <= iterations)%Z ->
  (length ds < Z.to_nat threads)%nat ->
  constructions New (config cb) (S (length ds)) (factory env)
    = map inl ds ++ [inr e0] ->
  exists f',
    Run New prefix cb env threads iterations commands
    = {| outcome :=
           Returned (Some ("error creating new driver for thread "
                             +:+ itoa (Z.of_nat (length ds)) +:+ ": " +:+ e0));
         bench := set_state Running cb;
         factory' := f';
         spawned := launched iterations 0 ds;
         joined := [];
         effects := prologue threads iterations ++ [SetState Running]
                      ++ launch_effects 0 (length ds) ++ [Call MNew] |}.
Proof.
  intros Hit Hlt Hc. unfold Run.
  destruct (Z.ltb_spec threads 0); [lia|].
  destruct (Z.ltb_spec iterations 0); [lia|]. rewrite andb_false_r.
  cbv zeta.
  edestruct (spawn_fail (set_state Running cb) iterations ds e0
               (Z.to_nat threads) 0%Z) as [f' ->]; [exact Hlt | exact Hc |].
  exists f'. cbn [sp_goroutines sp_eff sp_factory]. rewrite Z.add_0_l.
  now rewrite <- !app_assoc.
Qed.

Lemma Run_completes cb env threads iterations commands ds :
  (0 <= threads)%Z ->
  (0 < threads -> 0 <= iterations)%Z ->
  length ds = Z.to_nat threads ->
  constructions New (config cb) (Z.to_nat threads) (factory env) = map inl ds ->
  let gs := launched iterations 0 ds in
  let ws := map (join prefix cb (at_emit env) iterations commands) gs in
  exists f',
    Run New prefix cb env threads iterations commands
    = {| outcome := Returned (cleanup_error (driver.Clean (driver cb)).1);
         bench :=
           {| config := config cb; benchName := benchName cb;
              driver := (driver.Clean (driver cb)).2;
              imageInfo := imageInfo cb; cmdOverride := cmdOverride cb;
              trace := trace cb;
              stats := stats cb ++ flat_map (fun w => buf (ch w.2)) ws;
              elapsed := (at_join env - at_start env)%Z;
              state := Completed |};
         factory' := f';
         spawned := gs;
         joined := ws;
         effects := prologue threads iterations ++ [SetState Running]
                      ++ launch_effects 0 (length ds) ++ epilogue env |}.
Proof.
  intros Hth Hit Hlen Hc gs ws. unfold Run.
  destruct (Z.ltb_spec threads 0); [lia|].
  assert (Hpanic : (0 <? threads)%Z && (iterations <? 0)%Z = false).
  { destruct (Z.ltb_spec 0 threads); [|reflexivity].
    destruct (Z.ltb_spec iterations 0); [lia | reflexivity]. }
  rewrite Hpanic. cbv zeta. rewrite <- Hlen in Hc |- *.
  edestruct (spawn_ok (set_state Running cb) iterations ds 0%Z) as [f' ->];
    [exact Hc|].
  exists f'. cbn [sp_goroutines sp_eff sp_factory app].
  assert (Hws : map (join prefix (set_state Running cb) (at_emit env)
                       iterations commands) (launched iterations 0 ds) = ws).
  { apply map_ext. intros g. unfold join. apply runThread_set_state. }
  rewrite Hws.
  assert (Hall : forall k w, ws !! k = Some w ->
            w.1 <> Blocked /\ closed (ch w.2) = true).
  { intros k w Hk. unfold ws in Hk. rewrite list_lookup_fmap in Hk.
    destruct (gs !! k) as [g|] eqn:Hg; [|discriminate].
    injection Hk as <-. unfold gs in Hg.
    destruct ds as [|d ds']; [discriminate Hg|].
    apply (join_launched _ _ iterations _ (d :: ds') 0%Z k g); [|exact Hg].
    apply Hit. cbn [length] in Hlen. lia. }
  rewrite not_blocked_all by (intros k w Hk; now apply Hall in Hk).
  rewrite collect_closed by (intros k w Hk; now apply Hall in Hk).
  unfold cleanup_error.
  destruct (driver.Clean (driver (set_state Completed _))) as [cerr d] eqn:Hclean.
  cbn [driver set_state set_stats set_elapsed] in Hclean. rewrite Hclean.
  cbn [fst snd]. f_equal.
  now rewrite <- !app_assoc.
Qed.

(** [Run] ends in one of the three ways above. *)
Lemma Run_cases cb env threads iterations commands :
  let r := Run New prefix cb env threads iterations commands in
  (exists msg,
     outcome r = Panicked msg /\ bench r = cb /\ spawned r = [] /\
     joined r = [] /\ effects r = prologue threads iterations) \/
  (exists ds e0,
     (0 <= iterations)%Z /\ (length ds < Z.to_nat threads)%nat /\
     constructions New (config cb) (S (length ds)) (factory env)
       = map inl ds ++ [inr e0] /\
     outcome r = Returned (Some ("error creating new driver for thread "
                             +:+ itoa (Z.of_nat (length ds)) +:+ ": " +:+ e0)) /\
     bench r = set_state Running cb /\
     spawned r = launched iterations 0 ds /\
     joined r = [] /\
     effects r = prologue threads iterations ++ [SetState Running]
                   ++ launch_effects 0 (length ds) ++ [Call MNew]) \/
  (exists ds,
     (0 <= threads)%Z /\ (0 < threads -> 0 <= iterations)%Z /\
     length ds = Z.to_nat threads /\
     constructions New (config cb) (Z.to_nat threads) (factory env) = map inl ds /\
     outcome r = Returned (cleanup_error (driver.Clean (driver cb)).1) /\
     bench r =
       {| config := config cb; benchName := benchName cb;
          driver := (driver.Clean (driver cb)).2;
          imageInfo := imageInfo cb; cmdOverride := cmdOverride cb;
          trace := trace cb;
          stats := stats cb ++ records r;
          elapsed := (at_join env - at_start env)%Z;
          state := Completed |} /\
     spawned r = launched iterations 0 ds /\
     joined r = map (join prefix cb (at_emit env) iterations commands)
                    (launched iterations 0 ds) /\
     effects r = prologue threads iterations ++ [SetState Running]
                   ++ launch_effects 0 (length ds) ++ epilogue env).
Proof.
  intros r.
  destruct (Z.lt_ge_cases threads 0) as [Hneg | Hth].
  { left. destruct (Run_panics cb env threads iterations commands) as [msg Hr];
      [now left|]. exists msg. subst r. now rewrite Hr. }
  destruct (Z.lt_ge_cases iterations 0) as [Hineg | Hit].
  { destruct (Z.lt_ge_cases 0 threads) as [Hpos | Hzero].
    - left.
      destruct (Run_panics cb env threads iterations commands) as [msg Hr];
        [now right|]. exists msg. subst r. now rewrite Hr.
    - right. right. exists []. assert (threads = 0%Z) as -> by lia.
      destruct (Run_completes cb env 0 iterations commands []) as [f' Hr];
        try reflexivity; try lia.
      subst r. rewrite Hr. unfold records. cbn [joined].
      repeat split; lia. }
  destruct (constructions_cases (config cb) (Z.to_nat threads) (factory env))
    as [(ds & Hlen & Hc) | (ds & e0 & Hlen & Hc)].
  - right. right. exists ds.
    destruct (Run_completes cb env threads iterations commands ds) as [f' Hr];
      try assumption; try lia.
    subst r. rewrite Hr. unfold records. cbn [joined].
    repeat split; (assumption || lia).
  - right. left. exists ds, e0.
    destruct (Run_construction_fails cb env threads iterations commands ds e0)
      as [f' Hr]; try assumption.
    subst r. rewrite Hr. repeat split; assumption.
Qed.

End Coordinator.

(** *** The accessors *)
Section Accessors.
Import effects benches.
Context {Config D : Type}.
Implicit Types (cb : @CustomBench Config D).

(** C6: [Stats] returns the aggregated statistics vector when the state is
    [Completed] and an empty vector in every other state; so, for a vector
    that is not empty, it returns the vector if and only if the state is
    [Completed]. *)
Theorem Stats_only_when_completed cb :
  (state cb = Completed -> Stats cb = stats cb) /\
  (state cb <> Completed -> Stats cb = []) /\
  (stats cb <> [] -> (Stats cb = stats cb <-> state cb = Completed)).
Proof.
  unfold Stats. destruct (state cb) eqn:Hst; repeat split;
    try reflexivity; try congruence; try discriminate.
Qed.

End Accessors.

(** [Stats] on a benchmark with two records, completed and still running. *)
Lemma Stats_only_when_completed_witness :
  benches.Stats (mock.used effects.Completed) = [mock.sample; mock.sample] /\
  benches.Stats (mock.used effects.Running) = [].
Proof.
  split.
  - apply (proj1 (Stats_only_when_completed (mock.used effects.Completed))).
    reflexivity.
  - apply (proj1 (proj2 (Stats_only_when_completed (mock.used effects.Running)))).
    discriminate.
Defined.

(** *** The Docker driver *)
Section Docker.
Import effects gostrings DockerDriver.
Context {OS : Type} (sh : string -> OS -> (string * option driver.error) * OS).

(** C9: [DockerDriver.Clean] returns nil on every invocation.  It runs both
    shell commands whatever the first one returns, logs nothing above the
    warning level, and logs a warning for a failed command unless its
    output says that there was no container to act on. *)
Theorem DockerClean_returns_nil d os :
  let stopped := sh stop_containers os in
  let removed := sh remove_containers stopped.2 in
  let result := Clean sh d os in
  result.1.1 = None /\
  result.1.2 = removed.2 /\
  (forall e, In e result.2 ->
     exists lv format args,
       e = Log lv format args /\ (lv = InfoLevel \/ lv = WarnLevel)) /\
  (forall out e, stopped.1 = (out, Some e) ->
     Contains out requires_argument = false ->
     In (Log WarnLevel stop_warning [AErr e; AStr out]) result.2) /\
  (forall out e, removed.1 = (out, Some e) ->
     Contains out requires_argument = false ->
     In (Log WarnLevel remove_warning [AErr e; AStr out]) result.2).
Proof.
  unfold Clean. cbv zeta.
  destruct (sh stop_containers os) as [[out1 err1] os1].
  cbn [fst snd].
  destruct (sh remove_containers os1) as [[out2 err2] os2].
  cbn [fst snd].
  split; [reflexivity|]. split; [reflexivity|].
  split; [|split].
  - intros e He.
    destruct err1 as [e1|], err2 as [e2|];
      repeat match goal with
             | Hin : context [if negb ?b then _ else _] |- _ => destruct b; cbn [negb] in Hin
             end;
      rewrite ?in_app_iff in He; cbn [In] in He;
      repeat match goal with
             | Hor : _ \/ _ |- _ => destruct Hor as [Hor | Hor]
             end;
      try contradiction; subst e; eauto 8.
  - intros out e [= -> ->] ->. cbn [negb].
    destruct err2 as [e2|];
      [destruct (negb (Contains out2 requires_argument))|];
      rewrite ?in_app_iff; cbn [In]; auto 10.
  - intros out e [= -> ->] ->. cbn [negb].
    destruct err1 as [e1|];
      [destruct (negb (Contains out1 requires_argument))|];
      rewrite ?in_app_iff; cbn [In]; auto 10.
Qed.

End Docker.

(** [Clean] on a system where the Docker daemon is down: both commands fail,
    two warnings are logged, and nil is returned. *)
Lemma DockerClean_returns_nil_witness :
  (DockerDriver.Clean mock.failing_shell mock.docker 0%nat).1 = (None, 2%nat) /\
  In (effects.Log effects.WarnLevel DockerDriver.stop_warning
        [effects.AErr "exit status 1";
         effects.AStr "Cannot connect to the Docker daemon"])
     (DockerDriver.Clean mock.failing_shell mock.docker 0%nat).2.
Proof.
  pose proof (DockerClean_returns_nil mock.failing_shell mock.docker 0%nat) as Hc.
  cbv zeta in Hc. destruct Hc as (Hnil & Hos & _ & Hstop & _).
  split.
  - apply injective_projections; [exact Hnil | exact Hos].
  - apply Hstop; reflexivity.
Defined.

(** *** Lists of blocks of one length *)
Section Blocks.
Context {A B : Type} (f : A -> list B) (m : nat).

Lemma flat_map_uniform (l : list A) :
  (forall k a, l !! k = Some a -> length (f a) = m) ->
  length (flat_map f l) = (length l * m)%nat /\
  (forall k a j, l !! k = Some a -> (j < m)%nat ->
     flat_map f l !! (k * m + j)%nat = f a !! j).
Proof.
  induction l as [|a l IH]; intros Hall.
  - split; [reflexivity|]. intros k a j Hk. now rewrite lookup_nil in Hk.
  - pose proof (Hall 0%nat a eq_refl) as Ha.
    destruct IH as [IHlen IHget]; [intros k; apply (Hall (S k))|].
    cbn [flat_map length]. split.
    + rewrite length_app, IHlen, Ha. lia.
    + intros [|k] b j Hk Hj; cbn [lookup list_lookup] in Hk.
      * injection Hk as <-. cbn [Nat.mul Nat.add].
        apply lookup_app_l. lia.
      * rewrite lookup_app_r by lia.
        replace (S k * m + j - length (f a))%nat with (k * m + j)%nat by lia.
        now apply IHget.
Qed.

End Blocks.

(** *** The benchmark run *)
Section Benchmark.
Import effects gostrings benches.
Context {Config F D : Type} {Drv : driver.Driver D}.
Context (New : Config -> F -> (D + driver.error) * F) (prefix : string).

Implicit Types (cb : @CustomBench Config D) (env : @Env F).
Implicit Types (commands : list string) (ds : list D).

Local Abbreviation worker cb env iterations commands d k :=
  (runThread prefix cb (at_emit env) d k iterations commands
             (make_chan iterations)).

(** The workers of a run, one for each driver. *)
Lemma joined_lookup cb env iterations commands ds k w :
  map (join prefix cb (at_emit env) iterations commands)
      (launched iterations 0 ds) !! k = Some w ->
  exists d, ds !! k = Some d /\
    w = worker cb env iterations commands d (Z.of_nat k).
Proof.
  rewrite list_lookup_fmap.
  destruct (launched iterations 0 ds !! k) as [g|] eqn:Hg; [|discriminate].
  intros [= <-]. apply launched_lookup in Hg. destruct Hg as (d & Hd & ->).
  exists d. split; [assumption|]. unfold join. cbn [g_runner g_index g_stats].
  now rewrite Z.add_0_l.
Qed.

Lemma joined_lookup_Some cb env iterations commands ds k d :
  ds !! k = Some d ->
  map (join prefix cb (at_emit env) iterations commands)
      (launched iterations 0 ds) !! k
  = Some (worker cb env iterations commands d (Z.of_nat k)).
Proof.
  intros Hd.
  destruct (map _ (launched iterations 0 ds) !! k) as [w|] eqn:Hw.
  - apply joined_lookup in Hw. destruct Hw as (d' & Hd' & ->). congruence.
  - apply lookup_ge_None in Hw. rewrite length_map, (launched_length iterations) in Hw.
    apply lookup_lt_Some in Hd. lia.
Qed.

(** What a worker of a run leaves in its channel. *)
Lemma worker_channel cb env iterations commands d k :
  (0 <= iterations)%Z ->
  let w := worker cb env iterations commands d k in
  w.1 <> Blocked /\
  closed (ch w.2) = true /\
  (forall j entry, buf (ch w.2) !! j = Some entry ->
     Timestamp entry = at_emit env k (Z.of_nat j) /\
     dom (Durations entry) = duration_keys commands) /\
  match w.1 with
  | Done => length (buf (ch w.2)) = Z.to_nat iterations
  | _ => (length (buf (ch w.2)) < Z.to_nat iterations)%nat /\
         exists d' err,
           (driver.Create (container_name prefix k (Z.of_nat (length (buf (ch w.2)))))
              (imageInfo cb) (cmdOverride cb) true (trace cb) d').1 = inr err
  end.
Proof.
  intros Hit w.
  destruct w as [e t] eqn:Hw. unfold w in Hw.
  apply runThread_room in Hw; [|cbn [make_chan buf cap length]; lia].
  destruct Hw as (Hnb & Hcl & new & Hbuf & Hent & He).
  cbn [make_chan buf app] in Hbuf. cbn [fst snd]. rewrite Hbuf.
  split; [assumption|]. split; [assumption|]. split; [exact Hent | exact He].
Qed.

(** Every record that a run collects has the keys of its commands. *)
Lemma Run_records_keys cb env threads iterations commands entry :
  In entry (records (Run New prefix cb env threads iterations commands)) ->
  dom (Durations entry) = duration_keys commands.
Proof.
  destruct (Run_cases New prefix cb env threads iterations commands)
    as [(msg & _ & _ & _ & Hj & _)
       | [(ds & e0 & _ & _ & _ & _ & _ & _ & Hj & _)
         | (ds & Hth & Hit & Hlen & _ & _ & _ & _ & Hj & _)]];
    unfold records; rewrite Hj; cbn [flat_map In]; try contradiction.
  intros Hin. apply in_flat_map in Hin. destruct Hin as (w & Hw & Hin).
  apply list_elem_of_In, list_elem_of_lookup in Hw. destruct Hw as [k Hw].
  apply joined_lookup in Hw. destruct Hw as (d & Hd & ->).
  apply list_elem_of_In, list_elem_of_lookup in Hin. destruct Hin as [j Hin].
  assert (0 <= iterations)%Z as Hit'.
  { apply Hit. apply lookup_lt_Some in Hd. lia. }
  destruct (worker_channel cb env iterations commands d (Z.of_nat k) Hit')
    as (_ & _ & Hent & _).
  now apply Hent in Hin.
Qed.

(** [Run] appends the records it collects to the aggregated vector. *)
Lemma Run_stats cb env threads iterations commands :
  let r := Run New prefix cb env threads iterations commands in
  stats (bench r) = stats cb ++ records r.
Proof.
  intros r.
  destruct (Run_cases New prefix cb env threads iterations commands)
    as [(msg & _ & Hb & _ & Hj & _)
       | [(ds & e0 & _ & _ & _ & _ & Hb & _ & Hj & _)
         | (ds & _ & _ & _ & _ & _ & Hb & _)]];
    fold r in Hb; try fold r in Hj.
  - unfold records. rewrite Hb, Hj. cbn. now rewrite app_nil_r.
  - unfold records. rewrite Hb, Hj. cbn. now rewrite app_nil_r.
  - now rewrite Hb at 1.
Qed.

(** **** The claims on [Run] *)

(** C1 (amended): in every iteration that emits a record, and so in every
    record that a run collects, each command of the list that the switch
    knows, other than [metrics] and [stats], leaves an entry in [Durations]
    under its key, whether it succeeded or failed; a [metrics] or [stats]
    command leaves none, whether the driver's [Stats] succeeded or failed,
    so that [Durations] never has the key [metrics]. *)
Theorem metrics_store_no_duration :
  (forall cb clock tn commands i t t',
     iteration prefix cb clock tn commands i t = (Done, t') ->
     exists entry,
       buf (ch t') = buf (ch t) ++ [entry] /\
       dom (Durations entry) = duration_keys commands /\
       ("metrics" ∉ dom (Durations entry))) /\
  (forall cb env threads iterations commands entry,
     In entry (records (Run New prefix cb env threads iterations commands)) ->
     dom (Durations entry) = duration_keys commands /\
     ("metrics" ∉ dom (Durations entry))) /\
  (forall commands cmd k,
     In cmd commands -> duration_key cmd = Some k -> k ∈ duration_keys commands) /\
  (forall cmd,
     In (ToLower (command_head cmd)) ["metrics"; "stats"] ->
     duration_key cmd = None).
Proof.
  split; [|split; [|split]].
  - intros cb clock tn commands i t t' Hit.
    apply (iteration_record prefix) in Hit. destruct Hit as (entry & Hbuf & Hdom).
    exists entry. rewrite Hdom. split; [exact Hbuf|]. split; [reflexivity|].
    apply duration_keys_spec.
  - intros cb env threads iterations commands entry Hin.
    apply Run_records_keys in Hin. rewrite Hin. split; [reflexivity|].
    apply duration_keys_spec.
  - intros commands. apply duration_keys_spec.
  - apply duration_key_metrics.
Qed.

(** C7: the switch of the loop body compares the lowered verb, so that a
    verb matches whatever the case of its letters; a verb that is, up to
    the case of its letters, [run] or [start] calls [Run] and stores under
    [run], [stop] or [kill] calls [Stop] and stores under [stop], [remove],
    [erase] or [delete] calls [Remove] and stores under [remove], and
    [unpause] or [resume] calls [Unpause] and stores under [resume]; and
    every record emitted for the commands [START], [Kill], [DELETE], and so
    every record a run collects for them, has exactly the keys [run], [stop]
    and [remove] in [Durations]. *)
Theorem aliases_store_under_canonical_keys :
  (forall ctr name cmd v (it : @Iter D),
     same_letters (command_head cmd) v ->
     (In v ["run"; "start"] ->
      duration_key cmd = Some "run" /\
      stored (driver.Run ctr) "run" it (command ctr name cmd it)) /\
     (In v ["stop"; "kill"] ->
      duration_key cmd = Some "stop" /\
      stored (driver.Stop ctr) "stop" it (command ctr name cmd it)) /\
     (In v ["remove"; "erase"; "delete"] ->
      duration_key cmd = Some "remove" /\
      stored (driver.Remove ctr) "remove" it (command ctr name cmd it)) /\
     (In v ["unpause"; "resume"] ->
      duration_key cmd = Some "resume" /\
      stored (driver.Unpause ctr) "resume" it (command ctr name cmd it))) /\
  (forall cb clock tn i t t',
     iteration prefix cb clock tn ["START"; "Kill"; "DELETE"] i t = (Done, t') ->
     exists entry,
       buf (ch t') = buf (ch t) ++ [entry] /\
       dom (Durations entry) = {[ "run"; "stop"; "remove" ]}) /\
  (forall cb env threads iterations entry,
     In entry (records (Run New prefix cb env threads iterations
                            ["START"; "Kill"; "DELETE"])) ->
     dom (Durations entry) = {[ "run"; "stop"; "remove" ]}).
Proof.
  split; [|split].
  - intros ctr name cmd v it. apply command_alias.
  - intros cb clock tn i t t' Hit.
    apply (iteration_record prefix) in Hit. destruct Hit as (entry & Hbuf & Hdom).
    exists entry. now rewrite Hdom, shouted_keys.
  - intros cb env threads iterations entry Hin.
    apply Run_records_keys in Hin. now rewrite Hin, shouted_keys.
Qed.

(** C8: [Run] never resets the aggregated statistics vector: the records
    present before the call stay as a prefix and the records that the call
    collects are appended; after two calls the vector is the first vector
    followed by the records of the first and of the second call, and this
    is what [Stats] returns once the second call has completed. *)
Theorem Run_only_appends cb env threads iterations commands
        env2 threads2 iterations2 commands2 :
  let r := Run New prefix cb env threads iterations commands in
  let r2 := Run New prefix (bench r) env2 threads2 iterations2 commands2 in
  stats (bench r) = stats cb ++ records r /\
  stats (bench r2) = stats cb ++ records r ++ records r2 /\
  (state (bench r2) = Completed ->
   Stats (bench r2) = stats cb ++ records r ++ records r2).
Proof.
  intros r r2.
  assert (H1 : stats (bench r) = stats cb ++ records r) by apply Run_stats.
  assert (H2 : stats (bench r2) = stats cb ++ records r ++ records r2).
  { unfold r2. rewrite Run_stats, H1. now rewrite <- app_assoc. }
  split; [exact H1|]. split; [exact H2|].
  intros Hst. unfold Stats. now rewrite Hst.
Qed.

(** C10: with [threads = 0], [Run] starts no worker and constructs no
    driver, collects no record and leaves the aggregated vector as it was,
    sets the elapsed time from the two clock readings, sets the state to
    [Completed], and returns nil when the final [Clean] returns nil and the
    error of the final [Clean], under the prefix of [Run], otherwise. *)
Theorem Run_without_threads cb env iterations commands :
  let r := Run New prefix cb env 0 iterations commands in
  spawned r = [] /\
  joined r = [] /\
  factory' r = factory env /\
  records r = [] /\
  stats (bench r) = stats cb /\
  elapsed (bench r) = (at_join env - at_start env)%Z /\
  state (bench r) = Completed /\
  driver (bench r) = (driver.Clean (driver cb)).2 /\
  outcome r = Returned (cleanup_error (driver.Clean (driver cb)).1).
Proof.
  intros r. subst r. unfold records, cleanup_error, Run.
  change (0 <? 0)%Z with false. change (Z.to_nat 0) with 0%nat.
  cbn [andb spawn]. cbv zeta.
  cbn [sp_goroutines sp_eff sp_factory map existsb collect].
  cbn [driver set_state set_stats set_elapsed].
  destruct (driver.Clean (driver cb)) as [cerr d].
  cbn [spawned joined factory' bench outcome flat_map stats elapsed state
       driver fst snd set_driver].
  rewrite app_nil_r. repeat split.
Qed.

Lemma launch_effects_elem e : forall n i,
  In e (launch_effects i n) -> e = Call MNew \/ exists j, e = Go j.
Proof.
  induction n as [|n IH]; intros i; cbn [launch_effects In]; [contradiction|].
  intros [<- | [<- | Hin]]; eauto.
Qed.

(** C4 (amended): in the steps of [Run], the transition to [Completed]
    comes after the join of the workers and immediately before the call of
    the final [Clean]; no [Clean] is called before it, and the state stays
    [Completed] whatever that [Clean] returns. *)
Theorem completed_then_final_clean cb env threads iterations commands i :
  let r := Run New prefix cb env threads iterations commands in
  effects r !! i = Some (SetState Completed) ->
  (exists j, (j < i)%nat /\ effects r !! j = Some WaitDone) /\
  effects r !! S i = Some (Call MClean) /\
  (forall j, (j <= i)%nat -> effects r !! j <> Some (Call MClean)) /\
  state (bench r) = Completed /\
  outcome r = Returned (cleanup_error (driver.Clean (driver cb)).1).
Proof.
  intros r.
  assert (Hstart : forall ds e,
            In e ([Log InfoLevel "Start CustomBench run: threads (%d); iterations (%d)"
                     [AInt threads; AInt iterations]] ++ [SetState Running]
                    ++ launch_effects 0 (length ds)) ->
            e <> SetState Completed /\ e <> Call MClean).
  { intros ds e. rewrite !in_app_iff. cbn [In].
    intros [[<- | []] | [[<- | []] | Hin]]; try (split; discriminate).
    apply launch_effects_elem in Hin. destruct Hin as [-> | [j ->]];
      split; discriminate. }
  destruct (Run_cases New prefix cb env threads iterations commands)
    as [(msg & _ & _ & _ & _ & He)
       | [(ds & e0 & _ & _ & _ & _ & _ & _ & _ & He)
         | (ds & _ & _ & _ & _ & Ho & Hb & _ & _ & He)]];
    fold r in He; rewrite He.
  - intros Hi. destruct i as [|[|i]]; discriminate Hi.
  - rewrite !app_assoc, <- (app_assoc _ [SetState Running]). intros Hi.
    apply lookup_app_Some in Hi. destruct Hi as [Hi | [_ Hi]].
    + apply list_elem_of_lookup_2, list_elem_of_In, Hstart in Hi. now destruct Hi.
    + destruct (i - _)%nat as [|[|n]]; discriminate Hi.
  - fold r in Ho, Hb.
    rewrite !app_assoc, <- (app_assoc _ [SetState Running]).
    set (pre := _ ++ _ ++ launch_effects 0 (length ds)). intros Hi.
    apply lookup_app_Some in Hi. destruct Hi as [Hi | [Hge Hi]].
    + apply list_elem_of_lookup_2, list_elem_of_In, Hstart in Hi. now destruct Hi.
    + assert (i = (length pre + 2)%nat) as ->.
      { destruct (i - length pre)%nat as [|[|[|[|n]]]] eqn:Hd;
          try discriminate Hi; lia. }
      split; [|split; [|split; [|split]]].
      * exists (length pre + 0)%nat. split; [lia|].
        now rewrite lookup_app_r, Nat.add_0_r, Nat.sub_diag by lia.
      * rewrite lookup_app_r by lia.
        now replace (S (length pre + 2) - length pre)%nat with 3%nat by lia.
      * intros j Hj Hl. apply lookup_app_Some in Hl.
        destruct Hl as [Hl | [Hge' Hl]].
        -- apply list_elem_of_lookup_2, list_elem_of_In, Hstart in Hl. now destruct Hl.
        -- destruct (j - length pre)%nat as [|[|[|[|n]]]] eqn:Hd;
             try discriminate Hl; lia.
      * now rewrite Hb.
      * exact Ho.
Qed.

Lemma constructions_total cfg :
  (forall f, exists d, (New cfg f).1 = inl d) ->
  forall n f, exists ds, length ds = n /\ constructions New cfg n f = map inl ds.
Proof.
  intros Hnew. induction n as [|n IH]; intros f; [now exists []|].
  destruct (Hnew f) as [d Hd]. cbn [constructions].
  destruct (New cfg f) as [r f1]. cbn [fst] in Hd. subst r.
  destruct (IH f1) as (ds & Hlen & ->). exists (d :: ds).
  split; [cbn; lia | reflexivity].
Qed.

(** C2: for [threads >= 1] and [iterations >= 1], when no construction of a
    driver, no [Create] and no [Clean] fails, [Run] returns nil with the
    state [Completed]; every worker has run to the end of its loop, the run
    has collected [threads * iterations] records, the record at position
    [t * iterations + i] being the one that worker [t] stamped at the end
    of its iteration [i]; these records are appended to the aggregated
    vector, which has exactly [threads * iterations] records when it was
    empty before. *)
Theorem Run_with_succeeding_driver cb env threads iterations commands :
  (1 <= threads)%Z -> (1 <= iterations)%Z ->
  (forall cfg f, exists d, (New cfg f).1 = inl d) ->
  (forall name image cmd detached tr d,
      exists ctr, (driver.Create name image cmd detached tr d).1 = inl ctr) ->
  (forall d, (driver.Clean d).1 = None) ->
  let r := Run New prefix cb env threads iterations commands in
  outcome r = Returned None /\
  state (bench r) = Completed /\
  length (joined r) = Z.to_nat threads /\
  (forall w, In w (joined r) -> w.1 = Done) /\
  length (records r) = Z.to_nat (threads * iterations) /\
  (forall t i, (0 <= t < threads)%Z -> (0 <= i < iterations)%Z ->
     exists entry,
       records r !! Z.to_nat (t * iterations + i) = Some entry /\
       Timestamp entry = at_emit env t i) /\
  Stats (bench r) = stats cb ++ records r /\
  (stats cb = [] -> length (Stats (bench r)) = Z.to_nat (threads * iterations)).
Proof.
  intros Hth Hit Hnew Hcreate Hclean r.
  destruct (constructions_total (config cb) (Hnew (config cb))
              (Z.to_nat threads) (factory env)) as (ds & Hlen & Hc).
  destruct (Run_completes New prefix cb env threads iterations commands ds)
    as [f' Hr]; try assumption; try lia.
  fold r in Hr.
  set (ws := map (join prefix cb (at_emit env) iterations commands)
                 (launched iterations 0 ds)) in Hr.
  assert (Hws : forall k w, ws !! k = Some w ->
            w.1 = Done /\
            length (buf (ch w.2)) = Z.to_nat iterations /\
            forall j entry, buf (ch w.2) !! j = Some entry ->
              Timestamp entry = at_emit env (Z.of_nat k) (Z.of_nat j)).
  { intros k w Hk. apply joined_lookup in Hk. destruct Hk as (d & _ & ->).
    destruct (worker_channel cb env iterations commands d (Z.of_nat k))
      as (Hnb & _ & Hent & He); [lia|].
    destruct (worker cb env iterations commands d (Z.of_nat k)) as [e t].
    cbn [fst snd] in *. destruct e.
    - split; [reflexivity|]. split; [exact He|].
      intros j entry Hj. now apply Hent in Hj.
    - destruct He as (_ & d' & err & Hfail).
      destruct (Hcreate (container_name prefix (Z.of_nat k)
                           (Z.of_nat (length (buf (ch t)))))
                  (imageInfo cb) (cmdOverride cb) true (trace cb) d') as [ctr Hok].
      congruence.
    - congruence. }
  destruct (flat_map_uniform (fun w : Exit * Thread => buf (ch w.2))
              (Z.to_nat iterations) ws) as [Hcount Hget].
  { intros k w Hk. now apply Hws in Hk. }
  assert (Hrec : records r = flat_map (fun w : Exit * Thread => buf (ch w.2)) ws)
    by (now rewrite Hr).
  assert (Hjoined : joined r = ws) by (now rewrite Hr).
  assert (Hwlen : length ws = Z.to_nat threads).
  { unfold ws. now rewrite length_map, launched_length. }
  assert (Hsize : length (records r) = Z.to_nat (threads * iterations)).
  { rewrite Hrec, Hcount, Hwlen, Z2Nat.inj_mul by lia. reflexivity. }
  assert (Hstats : Stats (bench r) = stats cb ++ records r).
  { rewrite Hrec, Hr. reflexivity. }
  split; [rewrite Hr; cbn [outcome]; now rewrite Hclean|].
  split; [now rewrite Hr|].
  split; [now rewrite Hjoined|].
  split.
  { intros w Hw. rewrite Hjoined in Hw.
    apply list_elem_of_In, list_elem_of_lookup in Hw. destruct Hw as [k Hk].
    now apply Hws in Hk. }
  split; [exact Hsize|].
  split.
  { intros t i Ht Hi.
    destruct (ws !! Z.to_nat t) as [w|] eqn:Hw.
    2:{ apply lookup_ge_None in Hw. lia. }
    destruct (Hws _ _ Hw) as (_ & Hwl & Hstamp).
    destruct (buf (ch w.2) !! Z.to_nat i) as [entry|] eqn:He.
    2:{ apply lookup_ge_None in He. lia. }
    exists entry. split.
    - rewrite Hrec, Z2Nat.inj_add, Z2Nat.inj_mul by nia.
      rewrite (Hget _ w) by (assumption || lia). exact He.
    - apply Hstamp in He. now rewrite !Z2Nat.id in He by lia. }
  split; [exact Hstats|].
  intros Hempty. rewrite Hstats, Hempty. exact Hsize.
Qed.

(** C3: when every thread has its driver and the [Create] of worker [k]
    fails on its iteration [i], after its iterations [0..i-1] have
    completed, worker [k] ends with exactly the [i] records of these
    iterations in its channel, has called [Close] on its driver, in the
    state the failed [Create] left, and has closed its channel; every other
    worker ends as it does when run on its own driver, and [Run] collects
    the records of all the workers. *)
Theorem Create_failure_stops_one_worker
        cb env threads iterations commands ds k d i t_i err :
  length ds = Z.to_nat threads ->
  constructions New (config cb) (Z.to_nat threads) (factory env) = map inl ds ->
  ds !! k = Some d ->
  (0 <= i < iterations)%Z ->
  loop prefix cb (at_emit env) (Z.of_nat k) commands (Z.to_nat i) 0%Z
       {| runner := d; ch := make_chan iterations; eff := [] |} = (Done, t_i) ->
  (driver.Create (container_name prefix (Z.of_nat k) i) (imageInfo cb)
     (cmdOverride cb) true (trace cb) (runner t_i)).1 = inr err ->
  let r := Run New prefix cb env threads iterations commands in
  (exists w,
     joined r !! k = Some (Aborted, w) /\
     buf (ch w) = buf (ch t_i) /\
     length (buf (ch w)) = Z.to_nat i /\
     (forall j entry, buf (ch w) !! j = Some entry ->
        Timestamp entry = at_emit env (Z.of_nat k) (Z.of_nat j)) /\
     closed (ch w) = true /\
     runner w =
       (driver.Close
          (driver.Create (container_name prefix (Z.of_nat k) i) (imageInfo cb)
             (cmdOverride cb) true (trace cb) (runner t_i)).2).2 /\
     (exists pre post, eff w = pre ++ Call MClose :: post)) /\
  (forall k' d', k' <> k -> ds !! k' = Some d' ->
     joined r !! k' = Some (worker cb env iterations commands d' (Z.of_nat k'))) /\
  stats (bench r) = stats cb ++ records r.
Proof.
  intros Hlen Hc Hd Hi Hloop Hfail r.
  assert (Hk : (k < length ds)%nat) by (now apply lookup_lt_Some in Hd).
  destruct (Run_completes New prefix cb env threads iterations commands ds)
    as [f' Hr]; try assumption; try lia.
  fold r in Hr.
  assert (Hjoined : joined r = map (join prefix cb (at_emit env) iterations commands)
                                   (launched iterations 0 ds))
    by (now rewrite Hr).
  split; [|split].
  - destruct (runThread_aborts prefix cb (at_emit env) d (Z.of_nat k) iterations
                commands (make_chan iterations) i t_i err Hi Hloop Hfail)
      as (w & Hrun & Hch & Hrunner & Heff).
    exists w. rewrite Hjoined, (joined_lookup_Some _ _ _ _ _ _ _ Hd), Hrun.
    split; [reflexivity|].
    apply loop_inv in Hloop.
    destruct Hloop as (new & Hbuf & _ & _ & Hent & Hnew).
    cbn [ch make_chan buf app] in Hbuf.
    rewrite Hch. cbn [close buf closed]. rewrite Hbuf.
    split; [reflexivity|]. split; [exact Hnew|].
    split; [|split; [reflexivity | split; assumption]].
    intros j entry Hj. apply Hent in Hj. now rewrite Z.add_0_l in Hj.
  - intros k' d' _ Hd'. rewrite Hjoined. now apply joined_lookup_Some.
  - apply Run_stats.
Qed.

(** C5: when the construction of the driver of some thread fails, [Run]
    returns the error of the construction under its own prefix; it has
    joined no worker and collected no record, the aggregated vector is
    unchanged and [Stats] is empty, the state being left at [Running]; and
    each worker started before the failure runs on to its end: it is never
    blocked on its channel, and it closes it. *)
Theorem construction_failure_publishes_nothing
        cb env threads iterations commands ds e0 :
  (0 <= iterations)%Z ->
  (length ds < Z.to_nat threads)%nat ->
  constructions New (config cb) (S (length ds)) (factory env)
    = map inl ds ++ [inr e0] ->
  let r := Run New prefix cb env threads iterations commands in
  outcome r = Returned (Some ("error creating new driver for thread "
                            +:+ itoa (Z.of_nat (length ds)) +:+ ": " +:+ e0)) /\
  joined r = [] /\
  records r = [] /\
  stats (bench r) = stats cb /\
  state (bench r) = Running /\
  Stats (bench r) = [] /\
  spawned r = launched iterations 0 ds /\
  (forall g, In g (spawned r) ->
     (join prefix (bench r) (at_emit env) iterations commands g).1 <> Blocked /\
     closed (ch (join prefix (bench r) (at_emit env) iterations commands g).2)
       = true).
Proof.
  intros Hit Hlt Hc r.
  destruct (Run_construction_fails New prefix cb env threads iterations commands
              ds e0 Hit Hlt Hc) as [f' Hr].
  fold r in Hr. rewrite Hr. unfold records, Stats.
  cbn [outcome joined bench spawned set_state stats state flat_map].
  do 7 (split; [reflexivity|]).
  intros g Hg. apply list_elem_of_In, list_elem_of_lookup in Hg.
  destruct Hg as [j Hj].
  now apply (join_launched prefix _ (at_emit env) iterations commands ds 0%Z j g).
Qed.

End Benchmark.

(** *** The claims on concrete runs *)

Import effects benches mock scenarios.

(** C1, as stated, fails: the iteration calls [Stats], which succeeds and
    hands its reader to the draining goroutine, and the record it emits has
    no entry for [metrics] in [Durations]. *)
Lemma metrics_missing_after_stats :
  (forall c (d : Steady), (driver.Stats c d).1 = inl tt) /\
  exists t' entry,
    stats_thread = (Done, t') /\
    buf (ch t') = [entry] /\
    In (Call MStats) (eff t') /\
    In GoDiscard (eff t') /\
    Durations entry !! "metrics" = None /\
    dom (Durations entry) = {[ "run"; "stop"; "remove" ]}.
Proof.
  split; [reflexivity|].
  eexists _, _. split; [vm_compute; reflexivity|].
  split; [reflexivity|].
  split; [cbn [eff]; repeat first [left; reflexivity | right]|].
  split; [cbn [eff]; repeat first [left; reflexivity | right]|].
  split; [vm_compute; reflexivity|].
  vm_compute. reflexivity.
Qed.

(** The same iteration, for the amended claim. *)
Lemma metrics_store_no_duration_witness :
  exists entry,
    buf (ch stats_thread.2) = [entry] /\
    ("metrics" ∉ dom (Durations entry)).
Proof.
  destruct (metrics_store_no_duration steady_new "bb-ctr") as (Hiter & _).
  destruct (Hiter (fresh {| calls := 0 |}) (at_emit (env_of tt)) 0%Z
              ["run"; "stats"; "stop"; "remove"] 0%Z
              {| runner := {| calls := 0 |}; ch := make_chan 1; eff := [] |}
              stats_thread.2)
    as (entry & Hbuf & _ & Hno).
  - vm_compute. reflexivity.
  - exists entry. split; [exact Hbuf | exact Hno].
Defined.

Lemma Run_with_succeeding_driver_witness :
  outcome steady_run = Returned None /\
  length (Stats (bench steady_run)) = 6%nat.
Proof.
  destruct (Run_with_succeeding_driver steady_new "bb-ctr" (fresh {| calls := 0 |})
              (env_of tt) 2 3 ["run"; "stop"; "remove"])
    as (Hnil & _ & _ & _ & _ & _ & _ & Hsize).
  - lia.
  - lia.
  - intros cfg f. now exists {| calls := 0 |}.
  - intros name image cmd detached tr d. now exists name.
  - reflexivity.
  - split; [exact Hnil | apply Hsize; reflexivity].
Defined.

Lemma Run_only_appends_witness :
  Stats (bench steady_rerun) = records steady_run ++ records steady_rerun.
Proof.
  destruct (Run_only_appends steady_new "bb-ctr" (fresh {| calls := 0 |})
              (env_of tt) 2 3 ["run"; "stop"; "remove"]
              (env_of tt) 1 2 ["run"; "kill"])
    as (_ & _ & Hstats).
  apply Hstats. vm_compute. reflexivity.
Defined.

(** C4, as stated, fails: in the steps of [steady_run] the state is set to
    [Completed] at step 8, and no [Clean] is called before that step. *)
Lemma completed_set_before_clean :
  effects steady_run !! 8%nat = Some (SetState Completed) /\
  effects steady_run !! 9%nat = Some (Call MClean) /\
  ~ clean_before_completed (effects steady_run).
Proof.
  split; [vm_compute; reflexivity|]. split; [vm_compute; reflexivity|].
  intros Hclaim. destruct (Hclaim 8%nat) as (j & Hj & Hclean);
    [vm_compute; reflexivity|].
  do 8 (destruct j as [|j]; [vm_compute in Hclean; discriminate Hclean|]).
  lia.
Qed.

Lemma completed_then_final_clean_witness :
  effects steady_run !! 9%nat = Some (Call MClean) /\
  state (bench steady_run) = Completed.
Proof.
  destruct (completed_then_final_clean steady_new "bb-ctr" (fresh {| calls := 0 |})
              (env_of tt) 2 3 ["run"; "stop"; "remove"] 8%nat)
    as (_ & Hclean & _ & Hstate & _).
  - vm_compute. reflexivity.
  - split; [exact Hclean | exact Hstate].
Defined.

Lemma Create_failure_stops_one_worker_witness :
  (exists w,
     joined faulty_run !! 1%nat = Some (Aborted, w) /\
     length (buf (ch w)) = 2%nat /\
     closed (ch w) = true) /\
  joined faulty_run !! 2%nat
  = Some (runThread "bb-ctr" (fresh sound) (at_emit faulty_env) sound 2 4
            ["run"; "stop"; "remove"] (make_chan 4)).
Proof.
  destruct (Create_failure_stops_one_worker scripted_new "bb-ctr" (fresh sound)
              faulty_env 3 4 ["run"; "stop"; "remove"]
              [sound; faulty; sound] 1%nat faulty 2 faulty_thread "create: failed")
    as ((w & Hw & _ & Hlen & _ & Hclosed & _) & Hothers & _).
  - reflexivity.
  - reflexivity.
  - reflexivity.
  - lia.
  - vm_compute. reflexivity.
  - vm_compute. reflexivity.
  - split.
    + exists w. split; [exact Hw|]. split; [exact Hlen | exact Hclosed].
    + apply (Hothers 2%nat sound); [discriminate | reflexivity].
Defined.

Lemma construction_failure_publishes_nothing_witness :
  outcome broken_run
  = Returned (Some "error creating new driver for thread 1: no daemon") /\
  Stats (bench broken_run) = [] /\
  state (bench broken_run) = Running /\
  length (spawned broken_run) = 1%nat.
Proof.
  destruct (construction_failure_publishes_nothing scripted_new "bb-ctr"
              (fresh sound) broken_env 3 2 ["run"; "stop"; "remove"]
              [sound] "no daemon")
    as (Hout & _ & _ & _ & Hstate & Hstats & Hsp & _).
  - lia.
  - cbn. lia.
  - reflexivity.
  - split; [exact Hout|]. split; [exact Hstats|]. split; [exact Hstate|].
    unfold broken_run. now rewrite Hsp.
Defined.

Lemma aliases_store_under_canonical_keys_witness :
  duration_key "START" = Some "run" /\
  stored (driver.Run steady_container) "run" steady_iter
         (command steady_container "bb-ctr-0-0" "START" steady_iter).
Proof.
  destruct (aliases_store_under_canonical_keys steady_new "bb-ctr") as [Halias _].
  destruct (Halias steady_container "bb-ctr-0-0" "START" "start" steady_iter)
    as (Hrun & _).
  - repeat (constructor; [reflexivity|]). constructor.
  - apply Hrun. right. left. reflexivity.
Defined.

(** ** Part III: further properties *)

(** *** More on strings *)
Section MoreStrings.
Import gostrings.

Lemma append_cancel_l p a b : p +:+ a = p +:+ b -> a = b.
Proof. induction p as [|c p IH]; simpl; [auto|]. intros [= H]. auto. Qed.

Lemma has_byte_append c a b :
  has_byte c (a +:+ b) = has_byte c a || has_byte c b.
Proof.
  induction a as [|x a IH]; simpl; [reflexivity|]. now rewrite IH, orb_assoc.
Qed.

(** A string is cut in one way at the first occurrence of a byte. *)
Lemma cut_unique c s s' r r' :
  has_byte c s = false -> has_byte c s' = false ->
  s +:+ String c r = s' +:+ String c r' -> s = s' /\ r = r'.
Proof.
  revert s'. induction s as [|a s IH]; intros [|a' s'] Hs Hs'; simpl in *.
  - now intros [= ->].
  - intros [= <- _]. now rewrite Ascii.eqb_refl in Hs'.
  - intros [= -> _]. now rewrite Ascii.eqb_refl in Hs.
  - intros [= <- Heq]. apply orb_false_elim in Hs, Hs'.
    destruct (IH s') as [-> ->]; tauto.
Qed.

Lemma uint_digits d : has_byte "-" (NilEmpty.string_of_uint d) = false.
Proof. induction d; cbn; auto. Qed.

Lemma itoa_digits n : (0 <= n)%Z -> has_byte "-" (itoa n) = false.
Proof.
  intros Hn. unfold itoa. destruct n as [|p|p]; [reflexivity| |lia].
  cbn. unfold NilZero.string_of_uint.
  destruct (Pos.to_uint p); try reflexivity; apply uint_digits.
Qed.

Lemma itoa_inj n n' : itoa n = itoa n' -> n = n'.
Proof.
  unfold itoa. intros Heq. apply DecimalZ.to_int_inj.
  assert (Hn : forall z, NilZero.int_of_string (NilZero.string_of_int (Z.to_int z))
                         = Some (Z.to_int z)).
  { intros z. apply NilZero.isi; destruct z; cbn; try discriminate;
      intros [= H]; now apply DecimalPos.Unsigned.to_uint_nonnil in H. }
  pose proof (Hn n) as H1. rewrite Heq, Hn in H1. now injection H1.
Qed.

Lemma Split_plain s sep : has_byte sep s = false -> Split s sep = [s].
Proof.
  induction s as [|c s IH]; cbn; [reflexivity|].
  intros H. apply orb_false_elim in H. destruct H as [Hc Hs].
  rewrite Hc, IH by assumption. reflexivity.
Qed.

Lemma Split_cut a sep r :
  has_byte sep a = false -> Split (a +:+ String sep r) sep = a :: Split r sep.
Proof.
  induction a as [|c a IH]; simpl.
  - intros _. now rewrite Ascii.eqb_refl.
  - intros H. apply orb_false_elim in H. destruct H as [Hc Hs].
    rewrite Hc, IH by assumption. reflexivity.
Qed.

Lemma Split_Join elems sep :
  elems <> [] -> Forall (fun e => has_byte sep e = false) elems ->
  Split (Join elems sep) sep = elems.
Proof.
  induction elems as [|e [|e' rest] IH]; intros Hne Hall; [congruence| |].
  - cbn. apply Split_plain. now inversion Hall.
  - inversion Hall as [|? ? He Hrest]; subst.
    change (Join (e :: e' :: rest) sep) with (e +:+ String sep (Join (e' :: rest) sep)).
    rewrite Split_cut by assumption. f_equal. apply IH; [discriminate | assumption].
Qed.

Lemma SplitN_plain s sep : has_byte sep s = false -> SplitN s sep 2 = [s].
Proof.
  induction s as [|c s IH]; cbn; [reflexivity|].
  intros H. apply orb_false_elim in H. destruct H as [Hc Hs].
  rewrite Hc, IH by assumption. reflexivity.
Qed.

Lemma SplitN_cut a sep r :
  has_byte sep a = false -> SplitN (a +:+ String sep r) sep 2 = [a; r].
Proof.
  induction a as [|c a IH]; simpl.
  - intros _. rewrite Ascii.eqb_refl. now destruct r.
  - intros H. apply orb_false_elim in H. destruct H as [Hc Hs].
    rewrite Hc, IH by assumption. reflexivity.
Qed.

End MoreStrings.

(** *** More on the commands of a worker *)
Section MoreCommands.
Import effects gostrings benches.
Context {D : Type} {Drv : driver.Driver D}.
Implicit Types (it : @Iter D).

Lemma one_of_In labels s : one_of labels s = true <-> In s labels.
Proof.
  unfold one_of. rewrite existsb_exists. split.
  - intros (x & Hin & Heq). apply String.eqb_eq in Heq. now subst.
  - intros Hin. exists s. split; [assumption | apply String.eqb_refl].
Qed.

Local Ltac switch_at Hlow :=
  rewrite Hlow;
  repeat match goal with
         | |- context [one_of ?l ?v] =>
             let b := eval vm_compute in (one_of l v) in
             change (one_of l v) with b
         end;
  cbv iota.

Local Ltac by_timed :=
  match goal with
  | |- stored _ _ _ (timed ?m ?op ?k ?n ?it') => exact (timed_stored m op k n it')
  end.

(** X2: a command made of the verb [execsync], in any case, and of arguments
    separated by single spaces calls [Execsync] with exactly these arguments,
    none when the verb stands alone, and stores the result under the verb as
    it is written. *)
Theorem execsync_receives_its_arguments ctr name verb args it :
  has_byte " " verb = false ->
  ToLower verb = "execsync" ->
  Forall (fun a => has_byte " " a = false) args ->
  command_head (Join (verb :: args) " ") = verb /\
  stored (driver.Execsync ctr args) verb it
         (command ctr name (Join (verb :: args) " ") it).
Proof.
  intros Hverb Hlow Hargs. unfold command, command_head.
  destruct args as [|a rest].
  - cbn [Join]. rewrite SplitN_plain by assumption. split; [reflexivity|].
    cbv beta iota zeta. switch_at Hlow. by_timed.
  - change (Join (verb :: a :: rest) " ")
      with (verb +:+ String " " (Join (a :: rest) " ")).
    rewrite SplitN_cut by assumption. split; [reflexivity|].
    cbv beta iota zeta. rewrite Split_Join by (discriminate || assumption).
    switch_at Hlow. by_timed.
Qed.

(** X3: [pause], [wait] and [execsync] are stored under the verb as it is
    written in the command, with the case of its letters, not under the
    lowered verb: [PAUSE] and [pause] call the same method of the driver and
    fill two different keys. *)
Theorem pause_and_wait_keep_their_case ctr name cmd it :
  (ToLower (command_head cmd) = "pause" ->
   duration_key cmd = Some (command_head cmd) /\
   stored (driver.Pause ctr) (command_head cmd) it (command ctr name cmd it)) /\
  (ToLower (command_head cmd) = "wait" ->
   duration_key cmd = Some (command_head cmd) /\
   stored (driver.Wait ctr) (command_head cmd) it (command ctr name cmd it)) /\
  (ToLower (command_head cmd) = "execsync" ->
   duration_key cmd = Some (command_head cmd)).
Proof.
  (split; [|split]); intros Hlow;
    (split || idtac);
    try (unfold duration_key; switch_at Hlow; reflexivity);
    unfold command; unfold command_head in Hlow |- *;
    destruct (SplitN_2_cases cmd) as [Hs | (h & r & Hs)];
    rewrite Hs in Hlow |- *; cbv beta iota zeta;
    switch_at Hlow; by_timed.
Qed.

Lemma not_a_verb v :
  ~ In v verbs ->
  one_of ["run"; "start"] v = false /\
  one_of ["stop"; "kill"] v = false /\
  one_of ["remove"; "erase"; "delete"] v = false /\
  one_of ["pause"] v = false /\
  one_of ["unpause"; "resume"] v = false /\
  one_of ["wait"] v = false /\
  one_of ["metrics"; "stats"] v = false /\
  one_of ["execsync"] v = false.
Proof.
  intros Hv. repeat split; apply not_true_is_false; rewrite one_of_In;
    intros Hin; apply Hv; unfold verbs; cbn [In] in *; tauto.
Qed.

(** X4: a command whose lowered verb is none of the verbs of the switch
    calls no method of the driver and leaves the durations and the error
    counts as they are; it only logs, ending with the error line that names
    the verb. *)
Theorem unknown_verbs_are_skipped ctr name cmd it :
  ~ In (ToLower (command_head cmd)) verbs ->
  duration_key cmd = None /\
  it_runner (command ctr name cmd it) = it_runner it /\
  durations (command ctr name cmd it) = durations it /\
  errors (command ctr name cmd it) = errors it /\
  exists debug,
    Forall (fun e => exists format args, e = Log DebugLevel format args) debug /\
    it_eff (command ctr name cmd it)
    = it_eff it ++ debug ++
      [Log ErrorLevel "Command %q unrecognized from YAML commands list; skipping"
         [AStr (command_head cmd)]].
Proof.
  intros Hv. apply not_a_verb in Hv.
  destruct Hv as (H1 & H2 & H3 & H4 & H5 & H6 & H7 & H8).
  split; [unfold duration_key; now rewrite H1, H2, H3, H4, H5, H6, H7, H8|].
  unfold command. unfold command_head in *.
  destruct (SplitN_2_cases cmd) as [Hs | (h & r & Hs)];
    rewrite Hs in *; cbv beta iota zeta;
    rewrite H1, H2, H3, H4, H5, H6, H7, H8; cbn [emit it_runner durations errors it_eff];
    (do 3 (split; [reflexivity|])).
  - eexists [_]. split; [repeat constructor; eauto|]. now rewrite <- !app_assoc.
  - eexists [_; _]. split; [repeat constructor; eauto|]. now rewrite <- !app_assoc.
Qed.

(** X5: a [metrics] or [stats] command calls [Stats] once and never touches
    the durations; when [Stats] fails the count under [metrics] grows by one
    and a warning is logged, and when it succeeds the error counts are
    unchanged and the goroutine that drains the reader is started. *)
Theorem stats_failure_is_counted_under_metrics ctr name cmd it :
  In (ToLower (command_head cmd)) ["metrics"; "stats"] ->
  let r := driver.Stats ctr (it_runner it) in
  let it' := command ctr name cmd it in
  it_runner it' = r.2 /\
  durations it' = durations it /\
  errors it' =
    match r.1 with
    | inr _ => <["metrics" := (default 0 (errors it !! "metrics") + 1)%Z]> (errors it)
    | inl _ => errors it
    end /\
  exists debug,
    Forall (fun e => exists format args, e = Log DebugLevel format args) debug /\
    it_eff it' =
      it_eff it ++ debug ++ [Call MStats] ++
      match r.1 with
      | inl _ => [GoDiscard]
      | inr e =>
          [Log WarnLevel "Error during container command %q on %q: %v"
             [AStr (command_head cmd); AStr name; AErr e]]
      end.
Proof.
  intros Hin. cbn [In] in Hin. destruct Hin as [Hlow | [Hlow | []]];
    symmetry in Hlow; cbv zeta;
    unfold command; unfold command_head in Hlow |- *;
    destruct (SplitN_2_cases cmd) as [Hs | (h & r & Hs)];
    rewrite Hs in Hlow |- *; cbv beta iota zeta;
    switch_at Hlow; cbn [emit it_runner];
    destruct (driver.Stats ctr (it_runner it)) as [[reader | e] d];
    cbn [emit count_error it_runner durations errors it_eff fst snd];
    (do 3 (split; [reflexivity|]));
    solve [ eexists [_]; split; [repeat constructor; eauto|];
            now rewrite <- !app_assoc
          | eexists [_; _]; split; [repeat constructor; eauto|];
            now rewrite <- !app_assoc ].
Qed.

End MoreCommands.

(** *** More on the worker *)
Section MoreWorker.
Import effects gostrings benches.
Context {Config D : Type} {Drv : driver.Driver D}.
Context (prefix : string).

Implicit Types (cb : @CustomBench Config D) (t : @Thread D) (it : @Iter D).
Implicit Types (clock : Z -> Z -> Time) (commands : list string).

(** X1: the names of the containers are unique: two different pairs of a
    thread index and an iteration index, the thread indices not negative,
    give two different names. *)
Theorem container_names_are_unique threadNum i threadNum' i' :
  (0 <= threadNum)%Z -> (0 <= threadNum')%Z ->
  (threadNum, i) <> (threadNum', i') ->
  container_name prefix threadNum i <> container_name prefix threadNum' i'.
Proof.
  intros Ht Ht' Hne Heq. apply Hne. unfold container_name in Heq.
  apply append_cancel_l in Heq. simpl in Heq. injection Heq as Heq.
  apply cut_unique in Heq; try now apply itoa_digits.
  destruct Heq as [Hn Hi]. apply itoa_inj in Hn, Hi. now subst.
Qed.

(** **** The error counts *)

Lemma command_errors ctr name cmd it :
  dom (durations it) ⊆ dom (durations (command ctr name cmd it)) /\
  (errors (command ctr name cmd it) = errors it \/
   exists k,
     errors (command ctr name cmd it)
     = <[k := (default 0 (errors it !! k) + 1)%Z]> (errors it) /\
     (k ∈ dom (durations (command ctr name cmd it)) \/ k = "metrics")).
Proof.
  unfold command.
  destruct (SplitN_2_cases cmd) as [-> | (h & r & ->)]; cbv beta iota zeta;
    repeat (match goal with
            | |- context [if one_of ?l ?v then _ else _] => destruct (one_of l v)
            end);
    try (split; [reflexivity | left; reflexivity]);
    match goal with
    | |- context [timed ?m ?op ?k ?n ?i] =>
        pose proof (timed_stored m op k n i) as Hst; unfold stored in Hst;
        destruct (op (it_runner i)) as [[[out el] [e|]] d];
        destruct Hst as (_ & -> & ->); cbn [emit durations errors];
        rewrite dom_insert_L;
        (split; [set_solver|]);
        [right; exists k; split; [reflexivity | left; set_solver]
        | left; reflexivity]
    | |- context [driver.Stats ?c ?d] =>
        destruct (driver.Stats c d) as [[rd|e] d'];
        cbn [emit count_error durations errors];
        (split; [reflexivity|]);
        [left; reflexivity | right; exists "metrics"; split; [reflexivity | now right]]
    end.
Qed.

Lemma command_counted ctr name cmd n it :
  counted n it -> counted (S n) (command ctr name cmd it).
Proof.
  intros Hinv k v Hk.
  destruct (command_errors ctr name cmd it) as [Hdom [Heq | (k' & Heq & Hk')]];
    rewrite Heq in Hk.
  - apply Hinv in Hk. destruct Hk as [Hv [Hd | ->]].
    + split; [lia | left; set_solver].
    + split; [lia | now right].
  - destruct (decide (k' = k)) as [-> | Hne].
    + rewrite lookup_insert_eq in Hk. injection Hk as <-. split; [|exact Hk'].
      destruct (errors it !! k) as [v0|] eqn:Hv0; unfold default; cbn [from_option id].
      * apply Hinv in Hv0. destruct Hv0 as [Hv0 _]. lia.
      * lia.
    + rewrite lookup_insert_ne in Hk by assumption.
      apply Hinv in Hk. destruct Hk as [Hv [Hd | ->]].
      * split; [lia | left; set_solver].
      * split; [lia | now right].
Qed.

Lemma commands_counted ctr name commands : forall n it,
  counted n it ->
  counted (n + length commands)
          (fold_left (fun it cmd => command ctr name cmd it) commands it).
Proof.
  induction commands as [|cmd commands IH]; intros n it Hinv; cbn [fold_left length].
  - now rewrite Nat.add_0_r.
  - replace (n + S (length commands))%nat with (S n + length commands)%nat by lia.
    apply IH. now apply command_counted.
Qed.

(** The entry of an iteration holds the maps its commands leave. *)
Lemma iteration_entry cb clock tn commands i t t' :
  iteration prefix cb clock tn commands i t = (Done, t') ->
  exists ctr d,
    let it := fold_left (fun it cmd => command ctr (container_name prefix tn i) cmd it)
                commands
                {| it_runner := d; errors := ∅; durations := ∅;
                   it_eff := eff t ++ [Call (MCreate (container_name prefix tn i))]
                               ++ [WithCancel] |} in
    buf (ch t') = buf (ch t) ++
      [{| Durations := durations it; Errors := errors it;
          Timestamp := clock tn i |}].
Proof.
  unfold iteration.
  destruct (driver.Create _ _ _ _ _ _) as [[ctr|err] d]; [|discriminate].
  unfold send. destruct (_ <? _)%Z; [|discriminate].
  intros [= <-]. exists ctr, d. cbn [ch buf emit durations errors].
  now rewrite <- app_assoc.
Qed.

Lemma emitted_counted cb clock tn commands entry :
  emitted_by prefix cb clock tn commands entry ->
  forall k v, Errors entry !! k = Some v ->
    (1 <= v <= Z.of_nat (length commands))%Z /\
    (k ∈ dom (Durations entry) \/ k = "metrics").
Proof.
  intros (i & t & t' & Hit & Hbuf).
  apply iteration_entry in Hit. destruct Hit as (ctr & d & Hentry).
  cbv zeta in Hentry. rewrite Hbuf in Hentry.
  apply app_inj_tail in Hentry. destruct Hentry as [_ ->]. cbn [Errors Durations].
  apply (commands_counted ctr _ commands 0).
  intros k v Hk. cbn [errors] in Hk. now rewrite lookup_empty in Hk.
Qed.

(** **** The entries of a loop *)

Lemma loop_emitted cb clock tn commands n : forall i t e t',
  loop prefix cb clock tn commands n i t = (e, t') ->
  exists new,
    buf (ch t') = buf (ch t) ++ new /\
    Forall (emitted_by prefix cb clock tn commands) new.
Proof.
  induction n as [|n IH]; intros i t e t'; cbn [loop].
  - intros [= <- <-]. exists []. now rewrite app_nil_r.
  - destruct (iteration prefix cb clock tn commands i t) as [e1 t1] eqn:Hit.
    destruct e1.
    + intros Hloop. apply IH in Hloop. destruct Hloop as (new & Hbuf & Hall).
      pose proof Hit as Hinv. apply iteration_inv in Hinv.
      destruct Hinv as (ctr & entry & _ & _ & Hch & _).
      rewrite Hch in Hbuf. cbn [buf] in Hbuf.
      exists (entry :: new). rewrite Hbuf, <- app_assoc. split; [reflexivity|].
      constructor; [|assumption].
      exists i, t, t1. split; [assumption|]. now rewrite Hch.
    + intros [= <- <-]. apply iteration_inv in Hit.
      destruct Hit as (err & _ & -> & _). exists []. now rewrite app_nil_r.
    + intros [= <- <-]. apply iteration_inv in Hit.
      destruct Hit as (_ & ->). exists []. now rewrite app_nil_r.
Qed.

Lemma runThread_emitted cb clock d0 tn iterations commands c0 e w :
  runThread prefix cb clock d0 tn iterations commands c0 = (e, w) ->
  exists new,
    buf (ch w) = buf c0 ++ new /\
    Forall (emitted_by prefix cb clock tn commands) new.
Proof.
  intros Hrun. apply runThread_inv in Hrun. destruct Hrun as (t & Hloop & Hw).
  apply loop_emitted in Hloop. destruct Hloop as (new & Hbuf & Hall).
  cbn [ch] in Hbuf. exists new. split; [|assumption].
  destruct e; [destruct Hw as (_ & -> & _) | destruct Hw as (_ & -> & _) | subst w];
    assumption.
Qed.

End MoreWorker.

Section MoreWorker2.
Import effects gostrings benches.
Context {Config D : Type} {Drv : driver.Driver D}.
Context (prefix : string).

Implicit Types (cb : @CustomBench Config D) (t : @Thread D) (it : @Iter D).
Implicit Types (clock : Z -> Z -> Time) (commands : list string).

(** **** A driver whose commands never fail *)

Lemma command_reliable ctr name cmd it :
  reliable -> errors (command ctr name cmd it) = errors it.
Proof.
  intros (Hrun & Hstop & Hremove & Hpause & Hunpause & Hwait & Hexec & Hstats).
  unfold command.
  destruct (SplitN_2_cases cmd) as [-> | (h & r & ->)]; cbv beta iota zeta;
    repeat (match goal with
            | |- context [if one_of ?l ?v then _ else _] => destruct (one_of l v)
            end);
    try reflexivity;
    match goal with
    | |- context [timed ?m ?op ?k ?n ?i] =>
        pose proof (timed_stored m op k n i) as Hst; unfold stored in Hst;
        destruct (op (it_runner i)) as [[[out el] err] d] eqn:Hop;
        assert (err = None) as ->
          by (first [ pose proof (Hrun ctr (it_runner i)) as Hok;
                      rewrite Hop in Hok; exact Hok
                    | pose proof (Hstop ctr (it_runner i)) as Hok;
                      rewrite Hop in Hok; exact Hok
                    | pose proof (Hremove ctr (it_runner i)) as Hok;
                      rewrite Hop in Hok; exact Hok
                    | pose proof (Hpause ctr (it_runner i)) as Hok;
                      rewrite Hop in Hok; exact Hok
                    | pose proof (Hunpause ctr (it_runner i)) as Hok;
                      rewrite Hop in Hok; exact Hok
                    | pose proof (Hwait ctr (it_runner i)) as Hok;
                      rewrite Hop in Hok; exact Hok
                    | match op with
                      | driver.Execsync _ ?a =>
                          pose proof (Hexec ctr a (it_runner i)) as Hok;
                          rewrite Hop in Hok; exact Hok
                      end ]);
        destruct Hst as (_ & _ & ->); reflexivity
    | |- context [driver.Stats ?c ?d] =>
        destruct (Hstats c d) as [rd Hok];
        destruct (driver.Stats c d) as [[rd'|e] d'];
        cbn [fst] in Hok; [reflexivity | discriminate Hok]
    end.
Qed.

Lemma commands_reliable ctr name commands : forall it,
  reliable ->
  errors (fold_left (fun it cmd => command ctr name cmd it) commands it) = errors it.
Proof.
  induction commands as [|cmd commands IH]; intros it Hrel; [reflexivity|].
  cbn [fold_left]. rewrite IH by assumption. now apply command_reliable.
Qed.

Lemma emitted_reliable cb clock tn commands entry :
  reliable ->
  emitted_by prefix cb clock tn commands entry ->
  Errors entry = ∅.
Proof.
  intros Hrel (i & t & t' & Hit & Hbuf).
  apply iteration_entry in Hit. destruct Hit as (ctr & d & Hentry).
  cbv zeta in Hentry. rewrite Hbuf in Hentry.
  apply app_inj_tail in Hentry. destruct Hentry as [_ ->]. cbn [Errors].
  now rewrite commands_reliable.
Qed.

(** **** The steps around the commands *)

Lemma command_framing ctr name cmd it :
  List.filter framing (it_eff (command ctr name cmd it))
  = List.filter framing (it_eff it).
Proof.
  unfold command.
  destruct (SplitN_2_cases cmd) as [-> | (h & r & ->)]; cbv beta iota zeta;
    repeat (match goal with
            | |- context [if one_of ?l ?v then _ else _] => destruct (one_of l v)
            end);
    try (unfold timed, log_error;
         match goal with
         | |- context [let '(_, _) := ?x in _] => destruct x as [[[out el] [e|]] d]
         end);
    try (match goal with
         | |- context [driver.Stats ?c ?d] => destruct (driver.Stats c d) as [[rd|e] d']
         end);
    cbn [emit count_error it_eff]; rewrite ?List.filter_app; cbn [List.filter framing];
    now rewrite ?app_nil_r.
Qed.

Lemma commands_framing ctr name commands : forall it,
  List.filter framing
    (it_eff (fold_left (fun it cmd => command ctr name cmd it) commands it))
  = List.filter framing (it_eff it).
Proof.
  induction commands as [|cmd commands IH]; intros it; [reflexivity|].
  cbn [fold_left]. now rewrite IH, command_framing.
Qed.

Lemma iteration_framing cb clock tn commands i t e t' :
  iteration prefix cb clock tn commands i t = (e, t') ->
  List.filter framing (eff t')
  = List.filter framing (eff t) ++
    match e with
    | Aborted => [Call (MCreate (container_name prefix tn i))]
    | _ => [Call (MCreate (container_name prefix tn i)); WithCancel; Cancel]
    end.
Proof.
  unfold iteration.
  destruct (driver.Create _ _ _ _ _ _) as [[ctr|err] d].
  - unfold send. destruct (_ <? _)%Z; intros [= <- <-];
      cbn [eff emit it_eff]; rewrite List.filter_app, commands_framing;
      cbn [it_eff]; rewrite !List.filter_app; cbn [List.filter framing];
      now rewrite <- !app_assoc.
  - intros [= <- <-]. cbn [eff]. rewrite !List.filter_app. cbn [List.filter framing].
    now rewrite app_nil_r.
Qed.

Lemma frames_snoc tn n : forall i,
  frames prefix tn i (S n)
  = frames prefix tn i n ++
    [Call (MCreate (container_name prefix tn (i + Z.of_nat n))); WithCancel; Cancel].
Proof.
  induction n as [|n IH]; intros i.
  - cbn. now rewrite Z.add_0_r.
  - change (frames prefix tn i (S (S n)))
      with (Call (MCreate (container_name prefix tn i)) :: WithCancel :: Cancel
              :: frames prefix tn (i + 1) (S n)).
    rewrite IH. cbn [frames app].
    replace (i + 1 + Z.of_nat n)%Z with (i + Z.of_nat (S n))%Z by lia. reflexivity.
Qed.

Lemma loop_framing cb clock tn commands n : forall i t e t',
  loop prefix cb clock tn commands n i t = (e, t') ->
  exists k,
    length (buf (ch t')) = (length (buf (ch t)) + k)%nat /\
    List.filter framing (eff t')
    = List.filter framing (eff t) ++ frames prefix tn i k ++
      match e with
      | Done => []
      | Aborted => [Call (MCreate (container_name prefix tn (i + Z.of_nat k)))]
      | Blocked => [Call (MCreate (container_name prefix tn (i + Z.of_nat k)));
                    WithCancel; Cancel]
      end.
Proof.
  induction n as [|n IH]; intros i t e t'; cbn [loop].
  - intros [= <- <-]. exists 0%nat. cbn. now rewrite Nat.add_0_r, app_nil_r.
  - destruct (iteration prefix cb clock tn commands i t) as [e1 t1] eqn:Hit.
    pose proof (iteration_framing _ _ _ _ _ _ _ _ Hit) as Hf.
    apply iteration_inv in Hit.
    destruct e1.
    + destruct Hit as (ctr & entry & _ & _ & Hch & _).
      intros Hloop. apply IH in Hloop. destruct Hloop as (k & Hlen & Hk).
      exists (S k). rewrite Hch in Hlen. cbn [buf] in Hlen.
      rewrite length_app in Hlen. cbn [length] in Hlen. split; [lia|].
      rewrite Hk, Hf, <- !app_assoc. cbn [frames app].
      replace (i + 1 + Z.of_nat k)%Z with (i + Z.of_nat (S k))%Z by lia.
      reflexivity.
    + intros [= <- <-]. destruct Hit as (_ & _ & -> & _). exists 0%nat.
      split; [lia|]. rewrite Hf. cbn. now rewrite Z.add_0_r.
    + intros [= <- <-]. destruct Hit as (_ & ->). exists 0%nat.
      split; [lia|]. rewrite Hf. cbn. now rewrite Z.add_0_r.
Qed.

(** X8: a worker of a run is never blocked, and around its commands it does
    the following and nothing else: for each record it has sent, one
    [Create] with the name of that iteration, the context of the iteration
    and its cancellation; then, if it aborted, the one failed [Create]; and
    last, exactly one [Close]. *)
Theorem worker_frames cb clock d tn iterations commands :
  (0 <= iterations)%Z ->
  let w := runThread prefix cb clock d tn iterations commands
                     (make_chan iterations) in
  let sent := length (buf (ch w.2)) in
  w.1 <> Blocked /\
  List.filter framing (eff w.2)
  = frames prefix tn 0 sent ++
    match w.1 with
    | Aborted => [Call (MCreate (container_name prefix tn (Z.of_nat sent)))]
    | _ => []
    end ++ [Call MClose].
Proof.
  intros Hit w sent.
  destruct w as [e t'] eqn:Hw. unfold w in Hw.
  pose proof Hw as Hroom. apply runThread_room in Hroom;
    [|cbn [make_chan buf cap length]; lia].
  destruct Hroom as (Hnb & _).
  split; [exact Hnb|].
  unfold runThread in Hw.
  destruct (loop _ _ _ _ _ _ _ _) as [e1 t1] eqn:Hloop.
  apply loop_framing in Hloop. destruct Hloop as (k & Hlen & Hk).
  cbn [ch eff make_chan buf length List.filter app] in Hlen, Hk.
  assert (Hclose : forall e2 t2, e2 <> Blocked ->
            (let '(err, d1) := driver.Close (runner t1) in
             let eff1 := eff t1 ++ [Call MClose] in
             let eff2 := match err with
                         | Some e' => eff1 ++ [Log ErrorLevel "error on closing driver: %v" [AErr e']]
                         | None => eff1
                         end in
             (e2, {| runner := d1; ch := close (ch t1); eff := eff2 |})) = (e, t') ->
            e2 = e /\ length (buf (ch t')) = k /\
            List.filter framing (eff t') = List.filter framing (eff t1) ++ [Call MClose]).
  { intros e2 t2 _. destruct (driver.Close (runner t1)) as [[err|] d1];
      intros [= <- <-]; cbn [ch close buf eff]; rewrite ?List.filter_app;
      cbn [List.filter framing]; rewrite ?app_nil_r; auto. }
  unfold sent. cbn [fst snd].
  destruct e1.
  - destruct (Hclose Done t1) as (<- & -> & ->); [discriminate | exact Hw |].
    rewrite Hk, <- !app_assoc. reflexivity.
  - destruct (Hclose Aborted t1) as (<- & -> & ->); [discriminate | exact Hw |].
    rewrite Hk, <- !app_assoc. now rewrite Z.add_0_l.
  - injection Hw as <- <-. congruence.
Qed.

End MoreWorker2.

(** *** More on the run *)
Section MoreRun.
Import effects gostrings benches.
Context {Config F D : Type} {Drv : driver.Driver D}.
Context (New : Config -> F -> (D + driver.error) * F) (prefix : string).

Implicit Types (cb : @CustomBench Config D) (env : @Env F).
Implicit Types (commands : list string) (ds : list D).

Lemma Run_records_emitted cb env threads iterations commands entry :
  In entry (records (Run New prefix cb env threads iterations commands)) ->
  exists tn, emitted_by prefix cb (at_emit env) tn commands entry.
Proof.
  destruct (Run_cases New prefix cb env threads iterations commands)
    as [(msg & _ & _ & _ & Hj & _)
       | [(ds & e0 & _ & _ & _ & _ & _ & _ & Hj & _)
         | (ds & Hth & Hit & Hlen & _ & _ & _ & _ & Hj & _)]];
    unfold records; rewrite Hj; cbn [flat_map In]; try contradiction.
  intros Hin. apply in_flat_map in Hin. destruct Hin as (w & Hw & Hin).
  apply list_elem_of_In, list_elem_of_lookup in Hw. destruct Hw as [k Hw].
  apply (joined_lookup (F := F)) in Hw. destruct Hw as (d & Hd & ->).
  destruct (runThread _ _ _ _ _ _ _ _) as [e w] eqn:Hrun.
  apply runThread_emitted in Hrun. destruct Hrun as (new & Hbuf & Hall).
  cbn [snd make_chan buf app] in Hin, Hbuf. rewrite Hbuf in Hin.
  exists (Z.of_nat k). rewrite Forall_forall in Hall. now apply Hall, list_elem_of_In.
Qed.

(** X6: in every record that an iteration emits, and so in every record
    that a run collects, an error count that is present is at least 1 and at
    most the number of commands, and its key is a key of [Durations] or is
    [metrics]. *)
Theorem error_counts_are_bounded :
  (forall cb clock tn commands entry,
     emitted_by prefix cb clock tn commands entry ->
     forall k v, Errors entry !! k = Some v ->
       (1 <= v <= Z.of_nat (length commands))%Z /\
       (k ∈ dom (Durations entry) \/ k = "metrics")) /\
  (forall cb env threads iterations commands entry,
     In entry (records (Run New prefix cb env threads iterations commands)) ->
     forall k v, Errors entry !! k = Some v ->
       (1 <= v <= Z.of_nat (length commands))%Z /\
       (k ∈ dom (Durations entry) \/ k = "metrics")).
Proof.
  split.
  - intros cb clock tn commands entry. apply emitted_counted.
  - intros cb env threads iterations commands entry Hin.
    apply Run_records_emitted in Hin. destruct Hin as [tn Hin].
    now apply (emitted_counted prefix cb (at_emit env) tn).
Qed.

(** X7: on a driver none of whose commands returns an error, every record
    that a run collects has an empty [Errors] mapping. *)
Theorem reliable_driver_leaves_no_error cb env threads iterations commands entry :
  reliable ->
  In entry (records (Run New prefix cb env threads iterations commands)) ->
  Errors entry = ∅.
Proof.
  intros Hrel Hin. apply Run_records_emitted in Hin. destruct Hin as [tn Hin].
  now apply (emitted_reliable prefix cb (at_emit env) tn commands).
Qed.


(** X11: [Run] never changes the configuration, the name, the image, the
    command override or the trace flag of the benchmark; and unless it
    leaves the state [Completed], it changes neither the elapsed time, nor
    the coordinator's driver, nor the aggregated vector. *)
Theorem Run_keeps_the_configuration cb env threads iterations commands :
  let r := Run New prefix cb env threads iterations commands in
  config (bench r) = config cb /\
  benchName (bench r) = benchName cb /\
  imageInfo (bench r) = imageInfo cb /\
  cmdOverride (bench r) = cmdOverride cb /\
  trace (bench r) = trace cb /\
  (state (bench r) <> Completed ->
   elapsed (bench r) = elapsed cb /\
   driver (bench r) = driver cb /\
   stats (bench r) = stats cb).
Proof.
  intros r.
  destruct (Run_cases New prefix cb env threads iterations commands)
    as [(msg & _ & Hb & _)
       | [(ds & e0 & _ & _ & _ & _ & Hb & _)
         | (ds & _ & _ & _ & _ & _ & Hb & _)]];
    fold r in Hb; rewrite Hb; cbn; repeat split; congruence.
Qed.

Lemma worker_without_iterations cb clock d tn commands :
  exists w,
    runThread prefix cb clock d tn 0 commands (make_chan 0) = (Done, w) /\
    runner w = (driver.Close d).2 /\
    ch w = close (make_chan 0) /\
    List.filter framing (eff w) = [Call MClose].
Proof.
  unfold runThread. change (Z.to_nat 0) with 0%nat. cbn [loop runner ch eff].
  destruct (driver.Close d) as [[err|] d1]; eexists; (split; [reflexivity|]);
    cbn [runner ch eff snd app List.filter framing]; auto.
Qed.

(** X9: with [iterations = 0], every worker only closes its driver and its
    channel: no [Create] is called and no record is sent; [Run] still ends
    in the state [Completed], with the aggregated vector unchanged. *)
Theorem Run_without_iterations cb env threads commands ds :
  (0 <= threads)%Z ->
  length ds = Z.to_nat threads ->
  constructions New (config cb) (Z.to_nat threads) (factory env) = map inl ds ->
  let r := Run New prefix cb env threads 0 commands in
  records r = [] /\
  stats (bench r) = stats cb /\
  state (bench r) = Completed /\
  forall k d, ds !! k = Some d ->
    exists w,
      joined r !! k = Some (Done, w) /\
      runner w = (driver.Close d).2 /\
      ch w = close (make_chan 0) /\
      List.filter framing (eff w) = [Call MClose].
Proof.
  intros Hth Hlen Hc r.
  destruct (Run_completes New prefix cb env threads 0 commands ds)
    as [f' Hr]; try assumption; try lia.
  fold r in Hr.
  assert (Hj : joined r = map (join prefix cb (at_emit env) 0 commands)
                              (launched 0 0 ds)) by now rewrite Hr.
  assert (Hworker : forall k w, joined r !! k = Some w ->
            exists d, ds !! k = Some d /\ w.1 = Done /\
              runner w.2 = (driver.Close d).2 /\
              ch w.2 = close (make_chan 0) /\
              List.filter framing (eff w.2) = [Call MClose]).
  { intros k w Hk. rewrite Hj in Hk.
    apply (joined_lookup (F := F)) in Hk. destruct Hk as (d & Hd & ->).
    exists d. split; [assumption|].
    destruct (worker_without_iterations cb (at_emit env) d (Z.of_nat k) commands)
      as (w & -> & Hw). exact (conj eq_refl Hw). }
  assert (Hrec : records r = []).
  { unfold records.
    destruct (flat_map_uniform (fun w : Exit * Thread => buf (ch w.2)) 0 (joined r))
      as [Hcount _].
    - intros k w Hk. apply Hworker in Hk. destruct Hk as (d & _ & _ & _ & -> & _).
      reflexivity.
    - rewrite Nat.mul_0_r in Hcount. now apply length_zero_iff_nil. }
  split; [exact Hrec|].
  pose proof (Run_stats New prefix cb env threads 0 commands) as Hst.
  cbv zeta in Hst. fold r in Hst. rewrite Hrec, app_nil_r in Hst.
  split; [exact Hst|]. split; [now rewrite Hr|].
  intros k d Hd.
  pose proof (joined_lookup_Some (F := F) prefix cb env 0 commands ds k d Hd) as Hk.
  rewrite <- Hj in Hk.
  destruct (Hworker _ _ Hk) as (d' & Hd' & Hw).
  assert (d' = d) as -> by congruence.
  destruct (runThread _ _ _ _ _ _ _ _) as [e w]. cbn [fst snd] in Hw.
  destruct Hw as (-> & Hw). exists w. split; [exact Hk | exact Hw].
Qed.

End MoreRun.

(** *** The Docker driver and its daemon *)
Section MoreParse.
Import gostrings DockerDriver.

Lemma Split_colon s sep :
  has_byte sep s = true -> exists a b t, Split s sep = a :: b :: t.
Proof.
  induction s as [|c s IH]; simpl; [discriminate|].
  destruct (Ascii.eqb c sep) eqn:E; simpl.
  - intros _. destruct s as [|c' s']; simpl; [eauto|].
    destruct (Ascii.eqb c' sep); [eauto|].
    destruct (Split s' sep); eauto.
  - intros H. destruct (IH H) as (a & b & t & ->). eauto.
Qed.

Lemma value_missing line :
  nth_error (Split line ":") 1 = None <-> has_byte ":" line = false.
Proof.
  split.
  - intros H. destruct (has_byte ":" line) eqn:E; [|reflexivity].
    destruct (Split_colon _ _ E) as (a & b & t & Hs). rewrite Hs in H. discriminate H.
  - intros H. rewrite (Split_plain _ _ H). reflexivity.
Qed.

Lemma version_line_skip v line :
  version_entry line = false -> version_line v line = v.
Proof.
  unfold version_entry, version_labels, one_of, version_line. fold (label line).
  cbn [existsb]. rewrite orb_false_r. intros [H1 H2]%orb_false_iff.
  destruct v as [v|]; [|reflexivity]. cbv zeta. rewrite H1, H2. reflexivity.
Qed.

Lemma version_line_panics v line :
  version_line (Some v) line = None <->
  version_entry line = true /\ has_byte ":" line = false.
Proof.
  rewrite <- value_missing.
  unfold version_entry, version_labels, one_of, version_line. fold (label line).
  cbn [existsb]. rewrite orb_false_r. cbv zeta.
  destruct (String.eqb (label line) "Version") eqn:E1.
  - destruct (nth_error (Split line ":") 1) eqn:E2.
    + destruct (String.eqb (clientVer v) ""); split; try discriminate; intros [_ [=]].
    + split; auto.
  - destruct (String.eqb (label line) "API version") eqn:E3.
    + destruct (nth_error (Split line ":") 1) eqn:E2.
      * destruct (String.eqb (clientAPI v) ""); split; try discriminate; intros [_ [=]].
      * split; auto.
    + split; [discriminate|]. intros [[=] _].
Qed.

Lemma tag_of_label key : (exists tag, tag_of key = Some tag) <-> one_of info_labels key = true.
Proof.
  unfold tag_of, info_labels, info_tags, one_of. cbn [map fst existsb List.find].
  rewrite orb_false_r.
  destruct (String.eqb key "Kernel Version"); [cbn; split; eauto|].
  destruct (String.eqb key "Storage Driver"); [cbn; split; eauto|].
  destruct (String.eqb key "Backing Filesystem"); [cbn; split; eauto|].
  cbn. split; [intros [? [=]]|discriminate].
Qed.

Lemma info_line_skip v line :
  info_entry line = false -> info_line v line = v.
Proof.
  unfold info_entry, info_line. fold (label line). intros H.
  destruct v as [v|]; [|reflexivity]. cbv zeta.
  destruct (tag_of (label line)) eqn:E; [|reflexivity].
  assert (one_of info_labels (label line) = true) by (apply tag_of_label; eauto).
  congruence.
Qed.

Lemma info_line_panics v line :
  info_line (Some v) line = None <->
  info_entry line = true /\ has_byte ":" line = false.
Proof.
  rewrite <- value_missing.
  unfold info_entry, info_line. fold (label line). cbv zeta.
  destruct (tag_of (label line)) eqn:E.
  - assert (one_of info_labels (label line) = true) as -> by (apply tag_of_label; eauto).
    destruct (nth_error (Split line ":") 1); split; auto; try discriminate.
    intros [_ [=]].
  - split; [discriminate|]. intros [H _].
    apply tag_of_label in H as [tag H]. congruence.
Qed.

(** A loop over lines whose body panics on some lines. *)
Lemma fold_panics {A} (step : option A -> string -> option A) (bad : string -> bool) lines :
  (forall line, step None line = None) ->
  (forall v line, step (Some v) line = None <-> bad line = true) ->
  forall v, fold_left step lines (Some v) = None <-> exists line, In line lines /\ bad line = true.
Proof.
  intros Hnone Hbad. induction lines as [|l lines IH]; intros v; cbn [fold_left].
  - split; [discriminate|]. intros (? & [] & _).
  - destruct (step (Some v) l) as [v'|] eqn:E.
    + rewrite IH. split.
      * intros (line & Hin & Hb). exists line. split; [right|]; auto.
      * intros (line & [<-|Hin] & Hb).
        -- apply (Hbad v) in Hb. congruence.
        -- eauto.
    + split.
      * intros _. exists l. split; [left; reflexivity|]. apply (Hbad v). exact E.
      * intros _. clear -Hnone. induction lines as [|l' lines IH]; cbn [fold_left]; [reflexivity|].
        rewrite Hnone. exact IH.
Qed.

Lemma fold_none {A} (step : option A -> string -> option A) lines :
  (forall line, step None line = None) -> fold_left step lines None = None.
Proof.
  intros Hnone. induction lines as [|l lines IH]; cbn [fold_left]; [reflexivity|].
  rewrite Hnone. exact IH.
Qed.

Lemma fold_filter {A} (step : option A -> string -> option A) (read : string -> bool) lines :
  (forall v line, read line = false -> step v line = v) ->
  forall v, fold_left step lines v = fold_left step (List.filter read lines) v.
Proof.
  intros Hskip. induction lines as [|l lines IH]; intros v; cbn [fold_left List.filter]; [reflexivity|].
  destruct (read l) eqn:E; cbn [fold_left].
  - apply IH.
  - rewrite (Hskip _ _ E). apply IH.
Qed.

(** X12: [parseDaemonInfo] panics exactly when one scanned line of the
    version text is, white space around it apart, [Version] or
    [API version] with no colon, or one scanned line of the info text is in
    this way [Kernel Version], [Storage Driver] or [Backing Filesystem]:
    the value [parts[1]] of a recognised label is read without a check. *)
Theorem parseDaemonInfo_panics_without_colon version info :
  parseDaemonInfo version info = None <->
  (exists line, In line (Scan version) /\
                In (TrimSpace line) version_labels /\ has_byte ":" line = false) \/
  (exists line, In line (Scan info) /\
                In (TrimSpace line) info_labels /\ has_byte ":" line = false).
Proof.
  assert (Hlabel : forall line, has_byte ":" line = false -> label line = TrimSpace line).
  { intros line H. unfold label. rewrite (Split_plain _ _ H). reflexivity. }
  assert (Hv : forall v, fold_left version_line (Scan version) (Some v) = None <->
            exists line, In line (Scan version) /\ incomplete version_entry line = true).
  { apply fold_panics; [reflexivity|]. intros v line. rewrite version_line_panics.
    unfold incomplete. rewrite andb_true_iff, negb_true_iff. reflexivity. }
  assert (Hi : forall v, fold_left info_line (Scan info) (Some v) = None <->
            exists line, In line (Scan info) /\ incomplete info_entry line = true).
  { apply fold_panics; [reflexivity|]. intros v line. rewrite info_line_panics.
    unfold incomplete. rewrite andb_true_iff, negb_true_iff. reflexivity. }
  assert (Hbad : forall entry labels lines,
            (forall l, entry l = one_of labels (label l)) ->
            (exists line, In line lines /\ incomplete entry line = true) <->
            (exists line, In line lines /\ In (TrimSpace line) labels /\ has_byte ":" line = false)).
  { intros entry labels lines He. split; intros (line & Hin & H); exists line; (split; [exact Hin|]).
    - unfold incomplete in H. apply andb_true_iff in H as [H1 H2%negb_true_iff].
      split; [|exact H2]. rewrite He, (Hlabel _ H2) in H1. unfold one_of in H1.
      apply existsb_exists in H1 as (x & Hx & ->%String.eqb_eq). exact Hx.
    - destruct H as [H1 H2]. unfold incomplete. rewrite H2, He, (Hlabel _ H2). cbn [negb].
      rewrite andb_true_r. unfold one_of. apply existsb_exists. exists (TrimSpace line).
      split; [exact H1|apply String.eqb_refl]. }
  rewrite <- (Hbad version_entry version_labels (Scan version)) by reflexivity.
  rewrite <- (Hbad info_entry info_labels (Scan info)) by reflexivity.
  unfold parseDaemonInfo. cbv zeta.
  destruct (fold_left version_line (Scan version) (Some _)) as [v|] eqn:E1.
  - destruct (fold_left info_line (Scan info) (Some v)) as [v'|] eqn:E2.
    + split; [discriminate|]. intros [H|H].
      * eapply Hv in H. rewrite H in E1. discriminate E1.
      * apply (Hi v) in H. congruence.
    + split; [|reflexivity]. intros _. right. apply (Hi v). exact E2.
  - rewrite fold_none by reflexivity. split; [|reflexivity].
    intros _. left. eapply Hv. exact E1.
Qed.

(** X13: [parseDaemonInfo] reads only the lines whose label one of its two
    [switch] statements knows: two version texts with the same such lines,
    in the same order, and two info texts with the same such lines give the
    same result, whatever else the texts hold. *)
Theorem parseDaemonInfo_reads_its_entries_only version version' info info' :
  List.filter version_entry (Scan version) = List.filter version_entry (Scan version') ->
  List.filter info_entry (Scan info) = List.filter info_entry (Scan info') ->
  parseDaemonInfo version info = parseDaemonInfo version' info'.
Proof.
  intros Hv Hi. unfold parseDaemonInfo. cbv zeta.
  rewrite (fold_filter version_line version_entry (Scan version))
    by (intros; now apply version_line_skip).
  rewrite (fold_filter version_line version_entry (Scan version'))
    by (intros; now apply version_line_skip).
  rewrite Hv.
  rewrite (fold_filter info_line info_entry (Scan info))
    by (intros; now apply info_line_skip).
  rewrite (fold_filter info_line info_entry (Scan info'))
    by (intros; now apply info_line_skip).
  rewrite Hi. reflexivity.
Qed.

End MoreParse.

(** *** The Docker client *)
Section MoreClient.
Import effects gostrings DockerDriver.
Context {OS : Type}
        (ExecCmd : string -> string -> OS -> (string * option driver.error) * OS)
        (ExecTimedCmd : string -> string -> OS
                        -> (string * Z * option driver.error) * OS)
        (ResolveBinary : string -> OS -> string + driver.error).

Local Abbreviation Info := (DockerDriver.Info ExecCmd).
Local Abbreviation NewDockerDriver := (DockerDriver.NewDockerDriver ExecCmd ResolveBinary).

Lemma Info_cached d os :
  dockerInfo d <> "" -> Info d os = (Some (inl (dockerInfo d)), d, os).
Proof.
  intros H. unfold DockerDriver.Info.
  destruct (String.eqb (dockerInfo d) "") eqn:E; [apply String.eqb_eq in E; contradiction|].
  reflexivity.
Qed.

(** [Info] on a driver that has not yet asked the daemon. *)
Lemma Info_fresh d os :
  dockerInfo d = "" ->
  Info d os =
    let '((version, _), os1) := ExecCmd (dockerBinary d) "version" os in
    let '((info, err), os2) := ExecCmd (dockerBinary d) "info" os1 in
    match err with
    | Some e =>
        (Some (inr ("Error trying to retrieve docker daemon info: " +:+ e)), d, os2)
    | None =>
        match parseDaemonInfo version info with
        | None => (None, d, os2)
        | Some parsed =>
            let s := ("docker driver (binary: " +:+ dockerBinary d +:+ ")"
                        +:+ String LF "") +:+ parsed in
            (Some (inl s),
             {| dockerBinary := dockerBinary d; dockerInfo := s; logDriver := logDriver d |},
             os2)
        end
    end.
Proof.
  intros Hd. unfold DockerDriver.Info. rewrite Hd. cbn [String.eqb negb].
  destruct (ExecCmd (dockerBinary d) "version" os) as [[version verr] os1].
  destruct (ExecCmd (dockerBinary d) "info" os1) as [[info [e|]] os2]; [reflexivity|].
  destruct (parseDaemonInfo version info); reflexivity.
Qed.

Lemma Info_success d os s d' os' :
  Info d os = (Some (inl s), d', os') ->
  s <> "" /\ dockerInfo d' = s /\
  dockerBinary d' = dockerBinary d /\ logDriver d' = logDriver d.
Proof.
  destruct (String.eqb (dockerInfo d) "") eqn:E.
  - apply String.eqb_eq in E. rewrite (Info_fresh _ _ E).
    destruct (ExecCmd (dockerBinary d) "version" os) as [[version ?] os1].
    destruct (ExecCmd (dockerBinary d) "info" os1) as [[info [e|]] os2]; [discriminate|].
    destruct (parseDaemonInfo version info) as [parsed|]; [|discriminate].
    cbv zeta. intros [= <- <- <-]. cbn [dockerInfo dockerBinary logDriver].
    split; [discriminate|]. auto.
  - assert (Hne : dockerInfo d <> "") by (intros H; rewrite H in E; discriminate E).
    rewrite (Info_cached _ _ Hne). intros [= <- <- <-]. auto.
Qed.

(** X14: a call of [Info] that succeeds leaves its text, which is never
    empty, in the driver and changes nothing else of it; every later call
    returns the same text and runs no command. *)
Theorem Info_asks_the_daemon_once d os s d' os' :
  Info d os = (Some (inl s), d', os') ->
  s <> "" /\ dockerInfo d' = s /\
  dockerBinary d' = dockerBinary d /\ logDriver d' = logDriver d /\
  forall os2, Info d' os2 = (Some (inl s), d', os2).
Proof.
  intros H. destruct (Info_success _ _ _ _ _ H) as (Hs & Hi & Hb & Hl).
  do 4 (split; [assumption|]).
  intros os2. rewrite <- Hi. apply Info_cached. rewrite Hi. exact Hs.
Qed.

(** X15: on a driver that holds no text yet, [Info] runs [version] and then
    [info]; it returns an error exactly when [info] fails, the error of
    [version] being dropped, and then it leaves the driver as it was. *)
Theorem Info_fails_with_docker_info_only d os r d' os' :
  dockerInfo d = "" ->
  Info d os = (r, d', os') ->
  let answer :=
    ExecCmd (dockerBinary d) "info" (snd (ExecCmd (dockerBinary d) "version" os)) in
  os' = snd answer /\
  match snd (fst answer) with
  | Some e =>
      r = Some (inr ("Error trying to retrieve docker daemon info: " +:+ e)) /\ d' = d
  | None => forall e, r <> Some (inr e)
  end.
Proof.
  intros Hd. rewrite (Info_fresh _ _ Hd).
  destruct (ExecCmd (dockerBinary d) "version" os) as [[version verr] os1]. cbn [snd].
  destruct (ExecCmd (dockerBinary d) "info" os1) as [[info [e|]] os2]; cbn [fst snd].
  - intros [= <- <- <-]. auto.
  - destruct (parseDaemonInfo version info) as [parsed|];
      intros [= <- <- <-]; (split; [reflexivity|]); intros e; discriminate.
Qed.

(** X16: when [NewDockerDriver] returns a driver, either the error is nil
    and the driver has the resolved binary, the log driver asked for and the
    text of [Info], whose later calls run no command; or the binary could
    not be resolved, and the driver is the empty [DockerDriver], returned
    with the error before any command is run. *)
Theorem NewDockerDriver_gives_a_ready_driver binaryPath logDriver os d e os' log :
  NewDockerDriver binaryPath logDriver os = (Some (Some d, e), os', log) ->
  match e with
  | None =>
      ResolveBinary (given binaryPath) os = inl (dockerBinary d) /\
      DockerDriver.logDriver d = logDriver /\
      dockerInfo d <> "" /\
      (forall os2, Info d os2 = (Some (inl (dockerInfo d)), d, os2)) /\
      log = [Log DebugLevel "running docker driver: '%s', log driver: '%s'"
               [AStr (dockerInfo d); AStr logDriver]]
  | Some e =>
      ResolveBinary (given binaryPath) os = inr e /\
      d = {| dockerBinary := ""; dockerInfo := ""; logDriver := "" |} /\
      os' = os /\ log = []
  end.
Proof.
  unfold DockerDriver.NewDockerDriver. fold (given binaryPath).
  destruct (ResolveBinary (given binaryPath) os) as [bin|e0] eqn:ER.
  - destruct (DockerDriver.Info _ _ _) as [[r d1] os1] eqn:EI.
    destruct r as [[info|e1]|]; [|discriminate|discriminate].
    intros [= <- <- <- <-].
    destruct (Info_success _ _ _ _ _ EI) as (Hs & Hi & Hb & Hl).
    cbn [dockerBinary DockerDriver.logDriver] in Hb, Hl.
    rewrite Hb, Hl, Hi.
    do 2 (split; [reflexivity|]). split; [exact Hs|]. split; [|reflexivity].
    intros os2. rewrite <- Hi. apply Info_cached. rewrite Hi. exact Hs.
  - intros [= <- <- <- <-]. auto.
Qed.

(** X17: [NewDockerDriver] returns a nil driver only when the binary was
    resolved and [info] failed on it; it then returns the error of [Info]
    and logs nothing. *)
Theorem NewDockerDriver_without_driver binaryPath logDriver os e os' log :
  NewDockerDriver binaryPath logDriver os = (Some (None, e), os', log) ->
  exists bin e0,
    ResolveBinary (given binaryPath) os = inl bin /\
    snd (fst (ExecCmd bin "info" (snd (ExecCmd bin "version" os)))) = Some e0 /\
    e = Some ("Error trying to retrieve docker daemon info: " +:+ e0) /\
    os' = snd (ExecCmd bin "info" (snd (ExecCmd bin "version" os))) /\
    log = [].
Proof.
  unfold DockerDriver.NewDockerDriver. fold (given binaryPath).
  destruct (ResolveBinary (given binaryPath) os) as [bin|e0] eqn:ER; [|discriminate].
  rewrite Info_fresh by reflexivity. cbn [dockerBinary].
  destruct (ExecCmd bin "version" os) as [[version verr] os1] eqn:E1.
  destruct (ExecCmd bin "info" os1) as [[info [e0|]] os2] eqn:E2.
  - intros [= <- <- <-]. exists bin, e0. rewrite E1. cbn [snd]. rewrite E2.
    repeat split; assumption.
  - destruct (parseDaemonInfo version info); cbv zeta; discriminate.
Qed.

Lemma Split_Join_cons e l sep :
  has_byte sep e = false -> l <> [] ->
  Split (Join (e :: l) sep) sep = e :: Split (Join l sep) sep.
Proof.
  intros He Hl. destruct l as [|e' l]; [contradiction|].
  change (Join (e :: e' :: l) sep) with (e +:+ String sep (Join (e' :: l) sep)).
  apply Split_cut. exact He.
Qed.

(** X18: the command line that [Run] hands to [utils.ExecTimedCmd] reads
    back word by word when the log driver, the name and the image hold no
    space: cut at its spaces it is [run], [-d] for a detached container,
    [--log-driver] and the log driver when one is set, [--name], the name,
    the image, and then the words of the override command. *)
Theorem Run_command_line_words d ctr os :
  has_byte " " (logDriver d) = false ->
  has_byte " " (Name ctr) = false ->
  has_byte " " (Image ctr) = false ->
  exists line,
    DockerDriver.Run ExecTimedCmd d ctr os = ExecTimedCmd (dockerBinary d) line os /\
    Split line " " = run_words d ctr.
Proof.
  intros Hl Hn Hi. eexists. split; [reflexivity|].
  unfold run_args, run_words.
  destruct (Detached ctr), (String.eqb (logDriver d) "") eqn:El,
    (String.eqb (Command ctr) "") eqn:Ec;
    cbn [negb app];
    repeat (rewrite Split_Join_cons by (first [assumption | reflexivity | discriminate]));
    cbn [Join]; try reflexivity; rewrite (Split_plain _ _ Hi); reflexivity.
Qed.

End MoreClient.

(** *** Validating the driver *)
Section MoreValidation.
Import effects gostrings driver benches.
Context {Config D : Type} {Drv : Driver D}.


End MoreValidation.

(** *** Setting a benchmark up *)
Section MoreSetup.
Import effects gostrings driver benches.
Context {DType Rest F D : Type} {Drv : Driver D}.
Context (NewDriver : @Config DType Rest -> F -> (option D + error) * F).
Context (Info : D -> (string + error) * D).
Context (TypeString : DType -> string).

Local Abbreviation Bench := (@CustomBench (@Config DType Rest) D).
Local Abbreviation Init := (benches.Init NewDriver Info TypeString).

(** X20: [Init] writes the driver type and the path into the configuration
    before it constructs the driver, and they stay written when it fails;
    the name, the image, the override command, the trace flag and the driver
    are set only when it returns nil; the vector, the elapsed time and the
    state are never touched. *)
Theorem Init_sets_the_type_and_path_first (cb : Bench) name ty path image cmd tr f :
  let '(err, cb', f', steps) := Init cb name ty path image cmd tr f in
  config cb' = {| DriverType := ty; Path := path; others := others (config cb) |} /\
  f' = snd (NewDriver (config cb') f) /\
  stats cb' = stats cb /\ elapsed cb' = elapsed cb /\ state cb' = state cb /\
  match err with
  | None =>
      benchName cb' = name /\ imageInfo cb' = image /\ cmdOverride cb' = cmd /\
      trace cb' = tr
  | Some _ =>
      benchName cb' = benchName cb /\ imageInfo cb' = imageInfo cb /\
      cmdOverride cb' = cmdOverride cb /\ trace cb' = trace cb /\
      driver cb' = driver cb
  end.
Proof.
  unfold benches.Init. cbv zeta. cbn [config].
  destruct (NewDriver _ f) as [[[d0|]|e] f'] eqn:EN; cbn [config snd];
    try (rewrite EN; cbn [snd]; repeat split).
  destruct (Info d0) as [[info|e] d1]; cbn [config];
    try (rewrite EN; cbn [snd]; repeat split).
  destruct (Clean d1) as [[e|] d2]; cbn [config];
    rewrite EN; cbn [snd]; repeat split.
Qed.

(** X21: [Init] returns nil only after [driver.New], called on the
    configuration with the new type and path, gave a driver, [Info] of this
    driver succeeded and was logged, and [Clean] succeeded; the benchmark's
    driver is then this driver, as [Info] and [Clean] left it. *)
Theorem Init_succeeds_after_New_Info_and_Clean (cb : Bench) name ty path image cmd tr f
        cb' f' steps :
  Init cb name ty path image cmd tr f = (None, cb', f', steps) ->
  exists d0 info d1,
    NewDriver {| DriverType := ty; Path := path; others := others (config cb) |} f
      = (inl (Some d0), f') /\
    Info d0 = (inl info, d1) /\
    Clean d1 = (None, driver cb') /\
    steps = [Did (Call MNew); AskInfo;
             Did (Log InfoLevel "driver initialized: %s" [AStr info]);
             Did (Call MClean)].
Proof.
  unfold benches.Init. cbv zeta. cbn [config].
  destruct (NewDriver _ f) as [[[d0|]|e] f0] eqn:EN; try discriminate.
  destruct (Info d0) as [[info|e] d1] eqn:EI; try discriminate.
  destruct (Clean d1) as [[e|] d2] eqn:EC; try discriminate.
  intros [= <- <- <-]. exists d0, info, d1. cbn [driver]. repeat split; assumption.
Qed.

End MoreSetup.

(** *** The further properties on concrete runs *)

Lemma container_names_are_unique_witness :
  container_name "bb-ctr" 1 11 <> container_name "bb-ctr" 11 1.
Proof.
  apply container_names_are_unique; [lia | lia |].
  intros [=].
Defined.

Lemma execsync_receives_its_arguments_witness :
  stored (driver.Execsync steady_container ["ls"; "-la"; "/"]) "ExecSync" steady_iter
         (command steady_container "bb-ctr-0-0" "ExecSync ls -la /" steady_iter).
Proof.
  apply (execsync_receives_its_arguments steady_container "bb-ctr-0-0" "ExecSync"
           ["ls"; "-la"; "/"] steady_iter).
  - reflexivity.
  - reflexivity.
  - repeat constructor.
Defined.

Lemma pause_and_wait_keep_their_case_witness :
  duration_key "PAUSE" = Some "PAUSE" /\
  stored (driver.Pause steady_container) "PAUSE" steady_iter
         (command steady_container "bb-ctr-0-0" "PAUSE" steady_iter).
Proof.
  destruct (pause_and_wait_keep_their_case steady_container "bb-ctr-0-0" "PAUSE"
              steady_iter) as (Hpause & _).
  apply Hpause. reflexivity.
Defined.

Lemma unknown_verbs_are_skipped_witness :
  duration_key "boguscmd" = None /\
  durations (command steady_container "bb-ctr-0-0" "boguscmd" steady_iter) = ∅.
Proof.
  destruct (unknown_verbs_are_skipped steady_container "bb-ctr-0-0" "boguscmd"
              steady_iter) as (Hkey & _ & Hd & _).
  - unfold verbs. cbn [In]. intros H.
    repeat (destruct H as [H | H]; [discriminate H|]). exact H.
  - split; [exact Hkey | exact Hd].
Defined.

Lemma stats_failure_is_counted_under_metrics_witness :
  errors (command flaky_container "bb-ctr-0-0" "stats" flaky_iter)
  = <["metrics" := 1%Z]> ∅.
Proof.
  destruct (stats_failure_is_counted_under_metrics flaky_container "bb-ctr-0-0"
              "stats" flaky_iter) as (_ & _ & Herr & _).
  - right. left. reflexivity.
  - exact Herr.
Defined.

Lemma error_counts_are_bounded_witness :
  Errors flaky_entry !! "stop" = Some 2%Z /\
  (1 <= 2 <= 5)%Z /\
  ("stop" ∈ dom (Durations flaky_entry) \/ "stop" = "metrics").
Proof.
  assert (Hstop : Errors flaky_entry !! "stop" = Some 2%Z)
    by (vm_compute; reflexivity).
  split; [exact Hstop|].
  destruct (error_counts_are_bounded scripted_new "bb-ctr") as [_ Hrun].
  apply (Hrun (fresh sound) flaky_env 1%Z 2%Z flaky_commands flaky_entry).
  - vm_compute. left. reflexivity.
  - exact Hstop.
Defined.

Lemma steady_is_reliable : reliable (D := Steady).
Proof. repeat split; intros; now (reflexivity || exists tt). Qed.

Lemma reliable_driver_leaves_no_error_witness :
  Errors (hd sample (records steady_run)) = ∅.
Proof.
  apply (reliable_driver_leaves_no_error steady_new "bb-ctr" (fresh {| calls := 0 |})
           (env_of tt) 2 3 ["run"; "stop"; "remove"]).
  - exact steady_is_reliable.
  - vm_compute. left. reflexivity.
Defined.

Lemma worker_frames_witness :
  (runThread "bb-ctr" (fresh {| calls := 0 |}) (at_emit (env_of tt))
             {| calls := 0 |} 0 2 ["run"; "stop"] (make_chan 2)).1 <> Blocked.
Proof.
  apply (worker_frames "bb-ctr" (fresh {| calls := 0 |}) (at_emit (env_of tt))
           {| calls := 0 |} 0 2 ["run"; "stop"]).
  lia.
Defined.

Lemma Run_without_iterations_witness :
  records idle_run = [] /\ state (bench idle_run) = Completed.
Proof.
  destruct (Run_without_iterations steady_new "bb-ctr" (fresh {| calls := 0 |})
              (env_of tt) 2 ["run"; "stop"] [{| calls := 0 |}; {| calls := 0 |}])
    as (Hrec & _ & Hstate & _).
  - lia.
  - reflexivity.
  - reflexivity.
  - split; [exact Hrec | exact Hstate].
Defined.


Lemma Run_keeps_the_configuration_witness :
  imageInfo (bench broken_run) = "busybox" /\
  elapsed (bench broken_run) = 0%Z.
Proof.
  destruct (Run_keeps_the_configuration scripted_new "bb-ctr" (fresh sound)
              broken_env 3 2 ["run"; "stop"; "remove"])
    as (_ & _ & Himage & _ & _ & Hrest).
  destruct Hrest as (Helapsed & _); [vm_compute; discriminate|].
  split; [exact Himage | exact Helapsed].
Defined.

Lemma parseDaemonInfo_panics_without_colon_witness :
  DockerDriver.parseDaemonInfo version_text (text ["Storage Driver"]) = None.
Proof.
  apply parseDaemonInfo_panics_without_colon. right.
  exists "Storage Driver". vm_compute. auto.
Defined.

Lemma parseDaemonInfo_reads_its_entries_only_witness :
  DockerDriver.parseDaemonInfo version_text info_text
  = DockerDriver.parseDaemonInfo
      (text [" Version:           20.10.7"; " API version:       1.41";
             "  Version:          20.10.7";
             "  API version:      1.41 (minimum version 1.12)"])
      (text [" Storage Driver: overlay2"; "  Backing Filesystem: extfs";
             " Kernel Version: 5.4.0-80-generic"; " Runtimes: runc"]).
Proof.
  apply parseDaemonInfo_reads_its_entries_only; vm_compute; reflexivity.
Defined.

Lemma Info_asks_the_daemon_once_witness :
  DockerDriver.Info (client None None) (ready "")
                    ["/usr/bin/docker version"; "/usr/bin/docker info"]
  = (Some (inl docker_info), ready "",
     ["/usr/bin/docker version"; "/usr/bin/docker info"]).
Proof.
  destruct (Info_asks_the_daemon_once (client None None) docker [] docker_info (ready "")
              ["/usr/bin/docker version"; "/usr/bin/docker info"])
    as (_ & _ & _ & _ & Hagain); [vm_compute; reflexivity|].
  apply Hagain.
Defined.

Lemma Info_fails_with_docker_info_only_witness :
  (forall e, (DockerDriver.Info (client (Some "exit status 1") None) docker []).1.1
             <> Some (inr e)) /\
  (DockerDriver.Info (client None (Some "exit status 1")) docker []).1.1
  = Some (inr "Error trying to retrieve docker daemon info: exit status 1") /\
  (DockerDriver.Info (client None (Some "exit status 1")) docker []).1.2 = docker.
Proof.
  split.
  - destruct (Info_fails_with_docker_info_only (client (Some "exit status 1") None)
                docker []
                (DockerDriver.Info (client (Some "exit status 1") None) docker []).1.1
                (DockerDriver.Info (client (Some "exit status 1") None) docker []).1.2
                (DockerDriver.Info (client (Some "exit status 1") None) docker []).2)
      as [_ Hr]; [reflexivity | vm_compute; reflexivity |].
    exact Hr.
  - destruct (Info_fails_with_docker_info_only (client None (Some "exit status 1"))
                docker []
                (DockerDriver.Info (client None (Some "exit status 1")) docker []).1.1
                (DockerDriver.Info (client None (Some "exit status 1")) docker []).1.2
                (DockerDriver.Info (client None (Some "exit status 1")) docker []).2)
      as [_ Hr]; [reflexivity | vm_compute; reflexivity |].
    exact Hr.
Defined.

Lemma NewDockerDriver_gives_a_ready_driver_witness :
  (forall os2, DockerDriver.Info (client None None) (ready "json-file") os2
               = (Some (inl docker_info), ready "json-file", os2)) /\
  resolve "podman" [] = inr "executable file not found in $PATH".
Proof.
  split.
  - destruct (NewDockerDriver_gives_a_ready_driver (client None None) resolve
                "" "json-file" [] (ready "json-file") None
                ["/usr/bin/docker version"; "/usr/bin/docker info"]
                [Log DebugLevel "running docker driver: '%s', log driver: '%s'"
                   [AStr docker_info; AStr "json-file"]])
      as (_ & _ & _ & Hagain & _); [vm_compute; reflexivity|].
    exact Hagain.
  - destruct (NewDockerDriver_gives_a_ready_driver (client None None) resolve
                "podman" "json-file" []
                {| DockerDriver.dockerBinary := ""; DockerDriver.dockerInfo := "";
                   DockerDriver.logDriver := "" |}
                (Some "executable file not found in $PATH") [] [])
      as (Hres & _); [vm_compute; reflexivity|].
    exact Hres.
Defined.

Lemma NewDockerDriver_without_driver_witness :
  exists bin e0,
    resolve "docker" [] = inl bin /\
    (client None (Some "exit status 1") bin "info"
       (client None (Some "exit status 1") bin "version" []).2).1.2 = Some e0 /\
    Some "Error trying to retrieve docker daemon info: exit status 1"
    = Some ("Error trying to retrieve docker daemon info: " +:+ e0).
Proof.
  destruct (NewDockerDriver_without_driver (client None (Some "exit status 1")) resolve
              "" "json-file" []
              (Some "Error trying to retrieve docker daemon info: exit status 1")
              ["/usr/bin/docker version"; "/usr/bin/docker info"] [])
    as (bin & e0 & H1 & H2 & H3 & _); [vm_compute; reflexivity|].
  exists bin, e0. split; [exact H1|]. split; [exact H2 | exact H3].
Defined.

Lemma Run_command_line_words_witness :
  exists line,
    DockerDriver.Run timed_client (ready "json-file") test_container []
    = timed_client "/usr/bin/docker" line [] /\
    gostrings.Split line " "
    = ["run"; "-d"; "--log-driver"; "json-file"; "--name"; "bb-ctr-0-0"; "busybox";
       "sleep"; "30"].
Proof.
  apply (Run_command_line_words timed_client (ready "json-file") test_container []);
    reflexivity.
Defined.

Lemma Init_succeeds_after_New_Info_and_Clean_witness :
  exists d0 info d1,
    new_steady {| DriverType := "steady"; Path := "/bin/steady"; others := tt |} 0%nat
    = (inl (Some d0), 1%nat) /\
    steady_info d0 = (inl info, d1) /\
    driver.Clean d1 = (None, {| calls := 2 |}).
Proof.
  destruct (Init_succeeds_after_New_Info_and_Clean new_steady steady_info id blank
              "custom" "steady" "/bin/steady" "busybox" "sleep 30" false 0%nat
              {| config := {| DriverType := "steady"; Path := "/bin/steady"; others := tt |};
                 benchName := "custom"; driver := {| calls := 2 |};
                 imageInfo := "busybox"; cmdOverride := "sleep 30"; trace := false;
                 stats := []; elapsed := 0%Z; state := Created |}
              1%nat
              [Did (Call MNew); AskInfo;
               Did (Log InfoLevel "driver initialized: %s" [AStr "steady driver"]);
               Did (Call MClean)])
    as (d0 & info & d1 & H1 & H2 & H3 & _); [vm_compute; reflexivity|].
  exists d0, info, d1. split; [exact H1|]. split; [exact H2 | exact H3].
Defined.
